(** * Legend Cyber Analyzer: a shallow embedding of [server.js]

    The development follows the layout of the source file:
    - [RegExp]: the three regular-expression literals the server tests
      strings against, with a matcher by derivatives;
    - [Runtime]: JSON values, the world outside the process, and the
      result-or-exception monad over a log of collaborator invocations that
      stands for [async]/[await] and [try]/[catch];
    - [Server]: the objects the handlers build, the helpers ([resolveToIp],
      [ipGeo], [rdapLookup], [whoisLookup], [shodanLookup], [scanPort],
      [scanPorts], [heuristicScore]) and the two route handlers
      [/api/scan] and [/api/deepscan];
    - the vocabulary of the properties, then the properties: the matcher
      and the patterns, the score, the port scanner, the helpers, and the
      contract of the two routes.

    What the model takes for granted:
    - a request body gives [target], [type] and [session_id] as strings,
      when it gives them; the geolocation service gives [isp] as a string;
    - every socket ends ('close' follows 'connect', 'timeout' and 'error'),
      and a host that does not resolve is an 'error' of the socket, as in
      Node's [net];
    - [db.run] and [new Date()] do not throw; what is stored is not
      modelled, the call is only logged;
    - the set [paidSessions] is a parameter of [/api/deepscan]; the Stripe
      routes that fill it are in [Payments], and requests are served one
      after the other. *)

From Stdlib Require Import ZArith List String Ascii Bool Lia DecimalString.
Import ListNotations.

Set Implicit Arguments.
Set Warnings "-register-all".

(* ================================================================== *)
(** * Regular expressions *)
(* ================================================================== *)

(** A JavaScript string is modelled as a Rocq [string], one [ascii] per code
    unit.  None of the three patterns of [server.js] has a class that
    contains a code unit above 127, and without the [u] flag the [i] flag
    never folds such a code unit onto an ASCII one, so every code unit
    above 127 behaves the same: it matches no class. *)

Module RegExp.

Definition word := list ascii.

Inductive regex : Type :=
| Never
| Empty
| Class (p : ascii -> bool)
| Seq (r1 r2 : regex)
| Alt (r1 r2 : regex)
| Star (r : regex).

(** [r+] and [r{n,}] *)
Definition Plus (r : regex) : regex := Seq r (Star r).

Fixpoint AtLeast (n : nat) (r : regex) : regex :=
  match n with
  | O => Star r
  | S k => Seq r (AtLeast k r)
  end.

(** A literal run of characters, as in [/google/]. *)
Fixpoint Lit (w : word) : regex :=
  match w with
  | [] => Empty
  | c :: w' => Seq (Class (Ascii.eqb c)) (Lit w')
  end.

(** ** Character classes *)

Definition range (lo hi : ascii) : ascii -> bool :=
  fun c => (Ascii.leb lo c && Ascii.leb c hi)%bool.

Definition one_of (cs : list (ascii -> bool)) : ascii -> bool :=
  fun c => existsb (fun p => p c) cs.

(** [\d] *)
Definition digit : ascii -> bool := range "0" "9".

Definition letter : ascii -> bool :=
  fun c => (range "a" "z" c || range "A" "Z" c)%bool.

Definition any : ascii -> bool := fun _ => true.

(** ** The [i] flag

    ECMAScript's [Canonicalize] for a pattern without the [u] flag maps a
    code unit to its upper-case form, and leaves it alone when that form
    would move a code unit above 127 into ASCII.  On ASCII it is the usual
    upper-casing. *)
Definition canonicalize (c : ascii) : ascii :=
  if range "a" "z" c then ascii_of_N (N_of_ascii c - 32) else c.

Definition all_code_units : list ascii :=
  map ascii_of_nat (seq 0 256).

(** A class [A] matches [ch] under [i] when some member [a] of [A] has
    [Canonicalize(a) = Canonicalize(ch)]. *)
Definition ignore_case (p : ascii -> bool) : ascii -> bool :=
  fun ch =>
    existsb (fun a => (p a && Ascii.eqb (canonicalize a) (canonicalize ch))%bool)
            all_code_units.

Fixpoint icase (r : regex) : regex :=
  match r with
  | Never => Never
  | Empty => Empty
  | Class p => Class (ignore_case p)
  | Seq r1 r2 => Seq (icase r1) (icase r2)
  | Alt r1 r2 => Alt (icase r1) (icase r2)
  | Star r1 => Star (icase r1)
  end.

(** ** Meaning of a pattern: the words it generates *)

Inductive Matches : regex -> word -> Prop :=
| MEmpty : Matches Empty []
| MClass p c : p c = true -> Matches (Class p) [c]
| MSeq r1 r2 w1 w2 :
    Matches r1 w1 -> Matches r2 w2 -> Matches (Seq r1 r2) (w1 ++ w2)
| MAltL r1 r2 w : Matches r1 w -> Matches (Alt r1 r2) w
| MAltR r1 r2 w : Matches r2 w -> Matches (Alt r1 r2) w
| MStarNil r : Matches (Star r) []
| MStarApp r w1 w2 :
    Matches r w1 -> Matches (Star r) w2 -> Matches (Star r) (w1 ++ w2).

(** ** The matcher: derivatives *)

Fixpoint nullable (r : regex) : bool :=
  match r with
  | Never => false
  | Empty => true
  | Class _ => false
  | Seq r1 r2 => nullable r1 && nullable r2
  | Alt r1 r2 => nullable r1 || nullable r2
  | Star _ => true
  end.

Fixpoint deriv (c : ascii) (r : regex) : regex :=
  match r with
  | Never => Never
  | Empty => Never
  | Class p => if p c then Empty else Never
  | Seq r1 r2 =>
      if nullable r1
      then Alt (Seq (deriv c r1) r2) (deriv c r2)
      else Seq (deriv c r1) r2
  | Alt r1 r2 => Alt (deriv c r1) (deriv c r2)
  | Star r1 => Seq (deriv c r1) (Star r1)
  end.

Fixpoint accepts (r : regex) (w : word) : bool :=
  match w with
  | [] => nullable r
  | c :: w' => accepts (deriv c r) w'
  end.

(** [/^r$/.test(s)]: the whole string is a word of [r]. *)
Definition test_anchored (r : regex) (s : string) : bool :=
  accepts r (list_ascii_of_string s).

(** [/r/.test(s)]: some substring of [s] is a word of [r]. *)
Definition test_search (r : regex) (s : string) : bool :=
  accepts (Seq (Star (Class any)) (Seq r (Star (Class any))))
          (list_ascii_of_string s).

(** ** The patterns of [server.js] *)

Definition dot : regex := Class (Ascii.eqb ".").

(** [/^\d+\.\d+\.\d+\.\d+$/] *)
Definition IPV4_RE : regex :=
  Seq (Plus (Class digit))
   (Seq dot (Seq (Plus (Class digit))
    (Seq dot (Seq (Plus (Class digit))
     (Seq dot (Plus (Class digit))))))).

(** [/^[a-z0-9.-]+\.[a-z]{2,}$/i] *)
Definition DOMAIN_RE : regex :=
  icase
    (Seq (Plus (Class (one_of [range "a" "z"; range "0" "9";
                               Ascii.eqb "."; Ascii.eqb "-"])))
      (Seq dot (AtLeast 2 (Class (range "a" "z"))))).

(** [/google/i] *)
Definition GOOGLE_RE : regex :=
  icase (Lit (list_ascii_of_string "google")).

End RegExp.

Import RegExp.

(* ================================================================== *)
(** * Run-time model *)
(* ================================================================== *)

Module Runtime.

(** Parsed JSON, for the payloads the server passes through untouched. *)
Inductive json : Type :=
| JNull
| JBool (b : bool)
| JNum (n : Z)
| JStr (s : string)
| JArr (items : list json)
| JObj (fields : list (string * json)).

(** [!!v] *)
Definition truthy (v : json) : bool :=
  match v with
  | JNull => false
  | JBool b => b
  | JNum n => negb (Z.eqb n 0)
  | JStr s => negb (String.eqb s "")
  | JArr _ | JObj _ => true
  end.

(** [!!s] for a value that is a string, [null] or [undefined]. *)
Definition truthy_str (s : option string) : bool :=
  match s with
  | Some x => negb (String.eqb x "")
  | None => false
  end.

(** A string-or-missing value used where a string is expected. *)
Definition text (s : option string) : string :=
  match s with
  | Some x => x
  | None => "undefined"
  end.

(** [v || null] *)
Definition or_null (s : option string) : option string :=
  if truthy_str s then s else None.

(** A template literal or [+] applied to a number. *)
Definition string_of_Z (n : Z) : string :=
  DecimalString.NilZero.string_of_int (Z.to_int n).

(** The outcome of an awaited promise, or of a call that can throw. *)
Inductive result (A : Type) : Type :=
| Ok (a : A)
| Throw (message : string).
Arguments Throw {A} message.

(** What the geolocation service answers, once parsed.  The service
    documents [isp] as a string; the model keeps that field, the only one
    the server reads, and leaves the others opaque. *)
Record GeoRecord : Type := {
  isp : option string;
  geo_rest : list (string * json)
}.

(** A [node-fetch] response: [r.ok], [r.status], and what [await r.json()]
    gives (it rejects when the body does not parse). *)
Module Response.
Record t (B : Type) : Type := {
  ok : bool;
  status : Z;
  json : result B
}.
End Response.

(** How the socket of one probe ends.  A refused connection, an unreachable
    network and a host name that does not resolve all reach the program as
    an ['error'] event, which differ by their code only. *)
Inductive socket_outcome : Type :=
| Connected
| TimedOut
| Errored (code : string)
| ConnectThrows (message : string).

(** The log of one request: every helper entered and every call that
    leaves the process, oldest first. *)
Inductive event : Type :=
| Call_resolveToIp (host : string)
| Call_ipGeo (ip : string)
| Call_rdapLookup (target type : string)
| Call_whoisLookup (domain : string)
| Call_shodanLookup (ip : string)
| Call_scanPort (host : string) (port timeout : Z)
| Io_dns_lookup (host : string)
| Io_fetch (url : string)
| Io_whoiser (domain : string)
| Io_connect (port : Z) (host : string)
| Io_db_run (target type : string).

Definition history := list event.

(** Everything outside the process.  Each answer may depend on what the
    request has done so far, so the same call can get different answers at
    different times.  [fetch_geo] is [fetch] on the geolocation service,
    whose body is read as a [GeoRecord]. *)
Record World : Type := {
  env_SHODAN_API_KEY : option string;
  clock : history -> string;
  dns_lookup : history -> string -> result string;
  fetch : history -> string -> result (Response.t json);
  fetch_geo : history -> string -> result (Response.t (option GeoRecord));
  whoiser : history -> string -> result json;
  connect : history -> Z -> string -> Z -> socket_outcome
}.

(** ** The monad of an [async] function body *)

Definition M (A : Type) : Type := history -> history * result A.

Definition ret {A} (a : A) : M A := fun h => (h, Ok a).

Definition bind {A B} (m : M A) (f : A -> M B) : M B :=
  fun h =>
    match m h with
    | (h', Ok a) => f a h'
    | (h', Throw e) => (h', Throw e)
    end.

(** [try { m } catch (e) { handler e }] *)
Definition try_catch {A} (m : M A) (handler : string -> M A) : M A :=
  fun h =>
    match m h with
    | (h', Ok a) => (h', Ok a)
    | (h', Throw e) => handler e h'
    end.

Definition emit (e : event) : M unit := fun h => (h ++ [e], Ok tt).

(** Log the call, then let the world answer from the history so far. *)
Definition perform {A} (e : event) (answer : history -> result A) : M A :=
  fun h => (h ++ [e], answer h).

(** [new Date().toISOString()] *)
Definition now (w : World) : M string := fun h => (h, Ok (clock w h)).

(** [await p] for a promise that is already settled. *)
Definition await {A} (p : result A) : M A := fun h => (h, p).

Definition throw {A} (message : string) : M A := fun h => (h, Throw message).

End Runtime.

Import Runtime.

Declare Scope js_scope.
Delimit Scope js_scope with js.
Notation "x <- m ;; k" := (bind m (fun x => k))
  (at level 61, m at next level, right associativity) : js_scope.
Notation "m ;;; k" := (bind m (fun _ => k))
  (at level 61, right associativity) : js_scope.

Local Open Scope js_scope.
Local Open Scope string_scope.
Local Open Scope Z_scope.

(* ================================================================== *)
(** * The server *)
(* ================================================================== *)

Module Server.

(** ** The objects the handlers build

    A field that the code may leave unset has an [option] type, [None]
    standing for a missing property ([undefined]).  A value that can be
    [null] is a [json] (with [JNull]) or has a second [option]. *)

(** [{ port, status }] *)
Module Port.
Record t : Type := { port : Z; status : string }.
End Port.

(** [out.checks] *)
Module Checks.
Record t : Type := { rdap : option bool; https : option bool }.
Definition empty : t := {| rdap := None; https := None |}.
End Checks.

(** [out.details] *)
Module Details.
Record t : Type := {
  whois : option json;
  rdap : option json;
  geo : option (option GeoRecord);
  ports : option (list Port.t);
  shodan : option json
}.
Definition empty : t :=
  {| whois := None; rdap := None; geo := None; ports := None; shodan := None |}.
End Details.

(** [out], of either handler *)
Module Out.
Record t : Type := {
  target : string;
  type : option string;
  when : string;
  checks : option Checks.t;
  rdap : option json;
  whois : option json;
  resolved_ip : option (option string);
  geo : option (option GeoRecord);
  https_status : option Z;
  hints : option string;
  details : option Details.t;
  score : option Z
}.
End Out.

(** [req.body || {}], destructured *)
Module Body.
Record t : Type := {
  target : option string;
  type : option string;
  session_id : option string
}.
End Body.

(** What [res.status(c).json(...)] sends. *)
Inductive content : Type :=
| ErrorJson (error : string)
| OutJson (out : Out.t).

Module Reply.
Record t : Type := { code : Z; sent : content }.
End Reply.

(** ** Assignments to [out] *)

Definition set_rdap (o : Out.t) (v : json) : Out.t :=
  {| Out.target := Out.target o; Out.type := Out.type o; Out.when := Out.when o;
     Out.checks := Out.checks o; Out.rdap := Some v; Out.whois := Out.whois o;
     Out.resolved_ip := Out.resolved_ip o; Out.geo := Out.geo o;
     Out.https_status := Out.https_status o; Out.hints := Out.hints o;
     Out.details := Out.details o; Out.score := Out.score o |}.

Definition set_whois (o : Out.t) (v : json) : Out.t :=
  {| Out.target := Out.target o; Out.type := Out.type o; Out.when := Out.when o;
     Out.checks := Out.checks o; Out.rdap := Out.rdap o; Out.whois := Some v;
     Out.resolved_ip := Out.resolved_ip o; Out.geo := Out.geo o;
     Out.https_status := Out.https_status o; Out.hints := Out.hints o;
     Out.details := Out.details o; Out.score := Out.score o |}.

Definition set_resolved_ip (o : Out.t) (v : option string) : Out.t :=
  {| Out.target := Out.target o; Out.type := Out.type o; Out.when := Out.when o;
     Out.checks := Out.checks o; Out.rdap := Out.rdap o; Out.whois := Out.whois o;
     Out.resolved_ip := Some v; Out.geo := Out.geo o;
     Out.https_status := Out.https_status o; Out.hints := Out.hints o;
     Out.details := Out.details o; Out.score := Out.score o |}.

Definition set_geo (o : Out.t) (v : option GeoRecord) : Out.t :=
  {| Out.target := Out.target o; Out.type := Out.type o; Out.when := Out.when o;
     Out.checks := Out.checks o; Out.rdap := Out.rdap o; Out.whois := Out.whois o;
     Out.resolved_ip := Out.resolved_ip o; Out.geo := Some v;
     Out.https_status := Out.https_status o; Out.hints := Out.hints o;
     Out.details := Out.details o; Out.score := Out.score o |}.

Definition set_https_status (o : Out.t) (v : Z) : Out.t :=
  {| Out.target := Out.target o; Out.type := Out.type o; Out.when := Out.when o;
     Out.checks := Out.checks o; Out.rdap := Out.rdap o; Out.whois := Out.whois o;
     Out.resolved_ip := Out.resolved_ip o; Out.geo := Out.geo o;
     Out.https_status := Some v; Out.hints := Out.hints o;
     Out.details := Out.details o; Out.score := Out.score o |}.

Definition set_hints (o : Out.t) (v : string) : Out.t :=
  {| Out.target := Out.target o; Out.type := Out.type o; Out.when := Out.when o;
     Out.checks := Out.checks o; Out.rdap := Out.rdap o; Out.whois := Out.whois o;
     Out.resolved_ip := Out.resolved_ip o; Out.geo := Out.geo o;
     Out.https_status := Out.https_status o; Out.hints := Some v;
     Out.details := Out.details o; Out.score := Out.score o |}.

Definition set_score (o : Out.t) (v : Z) : Out.t :=
  {| Out.target := Out.target o; Out.type := Out.type o; Out.when := Out.when o;
     Out.checks := Out.checks o; Out.rdap := Out.rdap o; Out.whois := Out.whois o;
     Out.resolved_ip := Out.resolved_ip o; Out.geo := Out.geo o;
     Out.https_status := Out.https_status o; Out.hints := Out.hints o;
     Out.details := Out.details o; Out.score := Some v |}.

Definition with_checks (o : Out.t) (c : Checks.t) : Out.t :=
  {| Out.target := Out.target o; Out.type := Out.type o; Out.when := Out.when o;
     Out.checks := Some c; Out.rdap := Out.rdap o; Out.whois := Out.whois o;
     Out.resolved_ip := Out.resolved_ip o; Out.geo := Out.geo o;
     Out.https_status := Out.https_status o; Out.hints := Out.hints o;
     Out.details := Out.details o; Out.score := Out.score o |}.

Definition with_details (o : Out.t) (d : Details.t) : Out.t :=
  {| Out.target := Out.target o; Out.type := Out.type o; Out.when := Out.when o;
     Out.checks := Out.checks o; Out.rdap := Out.rdap o; Out.whois := Out.whois o;
     Out.resolved_ip := Out.resolved_ip o; Out.geo := Out.geo o;
     Out.https_status := Out.https_status o; Out.hints := Out.hints o;
     Out.details := Some d; Out.score := Out.score o |}.

(** [out.checks.k = v] and [out.details.k = v] throw a [TypeError] when
    the inner object is missing. *)
Definition in_checks (o : Out.t) (f : Checks.t -> Checks.t) : M Out.t :=
  match Out.checks o with
  | Some c => ret (with_checks o (f c))
  | None => throw "Cannot set properties of undefined"
  end.

Definition in_details (o : Out.t) (f : Details.t -> Details.t) : M Out.t :=
  match Out.details o with
  | Some d => ret (with_details o (f d))
  | None => throw "Cannot set properties of undefined"
  end.

Definition checks_rdap (v : bool) (c : Checks.t) : Checks.t :=
  {| Checks.rdap := Some v; Checks.https := Checks.https c |}.

Definition checks_https (v : bool) (c : Checks.t) : Checks.t :=
  {| Checks.rdap := Checks.rdap c; Checks.https := Some v |}.

Definition details_whois (v : json) (d : Details.t) : Details.t :=
  {| Details.whois := Some v; Details.rdap := Details.rdap d;
     Details.geo := Details.geo d; Details.ports := Details.ports d;
     Details.shodan := Details.shodan d |}.

Definition details_rdap (v : json) (d : Details.t) : Details.t :=
  {| Details.whois := Details.whois d; Details.rdap := Some v;
     Details.geo := Details.geo d; Details.ports := Details.ports d;
     Details.shodan := Details.shodan d |}.

Definition details_geo (v : option GeoRecord) (d : Details.t) : Details.t :=
  {| Details.whois := Details.whois d; Details.rdap := Details.rdap d;
     Details.geo := Some v; Details.ports := Details.ports d;
     Details.shodan := Details.shodan d |}.

Definition details_ports (v : list Port.t) (d : Details.t) : Details.t :=
  {| Details.whois := Details.whois d; Details.rdap := Details.rdap d;
     Details.geo := Details.geo d; Details.ports := Some v;
     Details.shodan := Details.shodan d |}.

Definition details_shodan (v : json) (d : Details.t) : Details.t :=
  {| Details.whois := Details.whois d; Details.rdap := Details.rdap d;
     Details.geo := Details.geo d; Details.ports := Details.ports d;
     Details.shodan := Some v |}.

(** ** Helpers *)

Section Helpers.

Variable w : World.

(** [process.env.SHODAN_API_KEY || null] *)
Definition SHODAN_KEY : option string :=
  if truthy_str (env_SHODAN_API_KEY w) then env_SHODAN_API_KEY w else None.

Definition resolveToIp (host : string) : M (option string) :=
  emit (Call_resolveToIp host) ;;;
  try_catch
    (r <- perform (Io_dns_lookup host) (fun h => dns_lookup w h host) ;;
     ret (Some r))
    (fun _ => ret None).

(** In [ipGeo] and [rdapLookup] the [return null] that follows the [try]
    is reached both from the [catch] and from a response that is not
    [ok]; each of the two paths below ends in it. *)
Definition ipGeo (ip : string) : M (option GeoRecord) :=
  emit (Call_ipGeo ip) ;;;
  let url := "http://ip-api.com/json/" ++ ip
             ++ "?fields=status,message,country,regionName,city,isp,org,query,as" in
  try_catch
    (r <- perform (Io_fetch url) (fun h => fetch_geo w h url) ;;
     if Response.ok r then await (Response.json r) else ret None)
    (fun _ => ret None).

Definition rdapLookup (target type : string) : M json :=
  emit (Call_rdapLookup target type) ;;;
  let url := if String.eqb type "ip"
             then "https://rdap.org/ip/" ++ target
             else "https://rdap.org/domain/" ++ target in
  try_catch
    (r <- perform (Io_fetch url) (fun h => fetch w h url) ;;
     if Response.ok r then await (Response.json r) else ret JNull)
    (fun _ => ret JNull).

Definition whoisLookup (domain : string) : M json :=
  emit (Call_whoisLookup domain) ;;;
  try_catch
    (perform (Io_whoiser domain) (fun h => whoiser w h domain))
    (fun _ => ret JNull).

Definition shodanLookup (ip : string) : M json :=
  emit (Call_shodanLookup ip) ;;;
  match SHODAN_KEY with
  | None => ret JNull
  | Some key =>
      try_catch
        (let url := "https://api.shodan.io/shodan/host/" ++ ip ++ "?key=" ++ key in
         r <- perform (Io_fetch url) (fun h => fetch w h url) ;;
         if Response.ok r then await (Response.json r)
         else ret (JObj [("error", JStr ("shodan:" ++ string_of_Z (Response.status r)))]))
        (fun e => ret (JObj [("error", JStr e)]))
  end.

(** [scanPort]: [status] starts as ["closed"]; the ['connect'] handler sets
    it to ["open"] and destroys the socket, the ['timeout'] handler only
    destroys it, the ['error'] handler does nothing; the ['close'] event
    that follows each of them resolves the promise with the status reached.
    The promise rejects only when [socket.connect] itself throws inside the
    executor. *)
Definition scanPort (host : string) (port : Z) (timeout : Z) : M Port.t :=
  emit (Call_scanPort host port timeout) ;;;
  let status := "closed" in
  ev <- perform (Io_connect port host)
                (fun h => match connect w h port host timeout with
                          | ConnectThrows e => Throw e
                          | ev => Ok ev
                          end) ;;
  let status := match ev with
                | Connected => "open"
                | _ => status
                end in
  ret {| Port.port := port; Port.status := status |}.

(** The default of [scanPort]'s third parameter. *)
Definition default_timeout : Z := 1000.

(** The [for ... of] loop of [scanPorts], [out] being the array pushed to. *)
Fixpoint scanPorts_from (host : string) (ports : list Z) (out : list Port.t)
  : M (list Port.t) :=
  match ports with
  | [] => ret out
  | p :: rest =>
      r <- try_catch
             (scanPort host p default_timeout)
             (fun _ => ret {| Port.port := p; Port.status := "error" |}) ;;
      scanPorts_from host rest (out ++ [r])
  end.

Definition scanPorts (host : string) (ports : list Z) : M (list Port.t) :=
  scanPorts_from host ports [].

End Helpers.

(** ** Basic heuristic *)

(** [out.checks?.https] and [out.checks?.rdap] *)
Definition out_checks_https (out : Out.t) : option bool :=
  match Out.checks out with
  | Some c => Checks.https c
  | None => None
  end.

Definition out_checks_rdap (out : Out.t) : option bool :=
  match Out.checks out with
  | Some c => Checks.rdap c
  | None => None
  end.

(** [out.geo?.isp] *)
Definition out_geo_isp (out : Out.t) : option string :=
  match Out.geo out with
  | Some (Some g) => isp g
  | _ => None
  end.

(** [v === false] *)
Definition is_false (v : option bool) : bool :=
  match v with
  | Some false => true
  | _ => false
  end.

(** [out.geo?.isp && /google/i.test(out.geo.isp)] *)
Definition isp_is_google (out : Out.t) : bool :=
  match out_geo_isp out with
  | Some name => truthy_str (Some name) && test_search GOOGLE_RE name
  | None => false
  end.

Definition heuristicScore (out : Out.t) : Z :=
  let s := 50 in
  let s := if is_false (out_checks_https out) then s + 15 else s in
  let s := if is_false (out_checks_rdap out) then s + 10 else s in
  let s := if isp_is_google out then s - 8 else s in
  Z.max 0 (Z.min 100 s).

(** ** Common ports *)

Definition COMMON_PORTS : list Z :=
  [80; 443; 21; 22; 25; 53; 110; 143; 161; 3306; 3389; 5900; 8080; 8443;
   587; 993; 995; 2082; 2083; 8444].

(** ** Stripe: store paid sessions *)

(** [paidSessions.has(id)], the set being kept as the list of its members. *)
Definition has (paidSessions : list string) (id : string) : bool :=
  existsb (String.eqb id) paidSessions.

(** ** Routes *)

Section Routes.

Variable w : World.

Definition reply (code : Z) (sent : content) : Reply.t :=
  {| Reply.code := code; Reply.sent := sent |}.

(** [POST /api/scan] *)
Definition scan (body : Body.t) : M Reply.t :=
  if negb (truthy_str (Body.target body))
  then ret (reply 400 (ErrorJson "missing target"))
  else
    let target := text (Body.target body) in
    let t := if truthy_str (Body.type body)
             then text (Body.type body)
             else if test_anchored IPV4_RE target then "ip" else "domain" in
    stamp <- now w ;;
    let out :=
      {| Out.target := target; Out.type := Some t; Out.when := stamp;
         Out.checks := Some Checks.empty; Out.rdap := None; Out.whois := None;
         Out.resolved_ip := None; Out.geo := None; Out.https_status := None;
         Out.hints := None; Out.details := None; Out.score := None |} in
    try_catch
      (out <-
         (if (String.eqb t "domain" || String.eqb t "ip")%bool then
            r <- rdapLookup w target t ;;
            let out := set_rdap out r in
            out <- in_checks out (checks_rdap (truthy r)) ;;
            out <- (if String.eqb t "domain"
                    then v <- whoisLookup w target ;; ret (set_whois out v)
                    else ret out) ;;
            ip <- (if String.eqb t "ip"
                   then ret (Some target)
                   else resolveToIp w target) ;;
            let out := set_resolved_ip out (or_null ip) in
            out <- (if truthy_str ip
                    then g <- ipGeo w (text ip) ;; ret (set_geo out g)
                    else ret out) ;;
            (if String.eqb t "domain" then
               try_catch
                 (let url := "https://" ++ target in
                  r <- perform (Io_fetch url) (fun h => fetch w h url) ;;
                  out <- in_checks out (checks_https (Response.ok r)) ;;
                  ret (set_https_status out (Response.status r)))
                 (fun _ => in_checks out (checks_https false))
             else ret out)
          else
            ret (set_hints out ("Search " ++ target ++ " on GitHub, Twitter, etc."))) ;;
       let out := set_score out (heuristicScore out) in
       emit (Io_db_run target t) ;;;
       ret (reply 200 (OutJson out)))
      (fun e => ret (reply 500 (ErrorJson e))).

(** [POST /api/deepscan] *)
Definition deepscan (paidSessions : list string) (body : Body.t) : M Reply.t :=
  if (negb (truthy_str (Body.target body))
      || negb (truthy_str (Body.session_id body)))%bool
  then ret (reply 400 (ErrorJson "missing target or session_id"))
  else if negb (has paidSessions (text (Body.session_id body)))
  then ret (reply 403 (ErrorJson "Pro access required (no valid payment session)"))
  else
    let target := text (Body.target body) in
    try_catch
      (stamp <- now w ;;
       let out :=
         {| Out.target := target; Out.type := None; Out.when := stamp;
            Out.checks := None; Out.rdap := None; Out.whois := None;
            Out.resolved_ip := None; Out.geo := None; Out.https_status := None;
            Out.hints := None; Out.details := Some Details.empty;
            Out.score := None |} in
       let isDomain := test_anchored DOMAIN_RE target in
       out <- (if isDomain
               then v <- whoisLookup w target ;; in_details out (details_whois v)
               else ret out) ;;
       r <- rdapLookup w target (if isDomain then "domain" else "ip") ;;
       out <- in_details out (details_rdap r) ;;
       ip <- (if isDomain
              then resolveToIp w target
              else ret (if test_anchored IPV4_RE target then Some target else None)) ;;
       let out := set_resolved_ip out (or_null ip) in
       out <- (if truthy_str ip then
                 g <- ipGeo w (text ip) ;;
                 out <- in_details out (details_geo g) ;;
                 ps <- scanPorts w (text ip) (firstn 20 COMMON_PORTS) ;;
                 out <- in_details out (details_ports ps) ;;
                 (if truthy_str (SHODAN_KEY w)
                  then s <- shodanLookup w (text ip) ;;
                       in_details out (details_shodan s)
                  else ret out)
               else ret out) ;;
       let out := set_score out (heuristicScore out) in
       emit (Io_db_run target "deepscan") ;;;
       ret (reply 200 (OutJson out)))
      (fun e => ret (reply 500 (ErrorJson e))).

End Routes.

(** Running a handler on a fresh request: the reply and the log. *)
Definition run {A} (m : M A) : history * result A := m [].

End Server.

Import Server.

(* ================================================================== *)
(** * The Stripe routes *)
(* ================================================================== *)

Module Payments.

(** A verified webhook event; the model keeps [event.type] and
    [event.data.object.id], the two things the route reads. *)
Record Event : Type := { type : string; object_id : string }.

(** The argument of [stripe.checkout.sessions.create]. *)
Record SessionParams : Type := {
  payment_method_types : list string;
  mode : string;
  currency : string;
  product_name : string;
  unit_amount : Z;
  quantity : Z;
  metadata_target : option string;
  success_url : string;
  cancel_url : string
}.

(** The environment variables of the payment side, and the two calls into
    the Stripe library: [constructEvent(body, sig, secret)], which throws
    unless the signature is right, and [sessions.create(params)], which
    gives the session's [url]. *)
Record Stripe : Type := {
  env_STRIPE_SECRET_KEY : option string;
  env_STRIPE_WEBHOOK_SECRET : option string;
  env_PUBLIC_URL : option string;
  constructEvent : string -> option string -> option string -> result Event;
  sessions_create : SessionParams -> result string
}.

Section Routes.

Variable s : Stripe.

(** [process.env.STRIPE_SECRET_KEY || null] and
    [process.env.STRIPE_WEBHOOK_SECRET || null] *)
Definition STRIPE_SECRET : option string := or_null (env_STRIPE_SECRET_KEY s).

Definition STRIPE_WEBHOOK_SECRET : option string :=
  or_null (env_STRIPE_WEBHOOK_SECRET s).

(** [stripe] is a client, or [null] without a secret; the model keeps
    whether it is one. *)
Definition stripe : bool := truthy_str STRIPE_SECRET.

(** [process.env.PUBLIC_URL || "http://localhost:3000"] *)
Definition public_url : string :=
  if truthy_str (env_PUBLIC_URL s) then text (env_PUBLIC_URL s)
  else "http://localhost:3000".

Inductive checkout_reply : Type :=
| CheckoutError (code : Z) (error : string)
| CheckoutUrl (url : string).

(** [POST /api/create-checkout-session] *)
Definition create_checkout_session (body : Body.t) : checkout_reply :=
  if negb stripe then CheckoutError 400 "Stripe not configured"
  else
    let target := Body.target body in
    match sessions_create s
            {| payment_method_types := ["card"];
               mode := "payment";
               currency := "usd";
               product_name := "Legend Cyber Pro Scan";
               unit_amount := 199;
               quantity := 1;
               metadata_target := target;
               success_url := public_url ++ "?session_id={CHECKOUT_SESSION_ID}";
               cancel_url := public_url ++ "?canceled=true" |}
    with
    | Ok url => CheckoutUrl url
    | Throw e => CheckoutError 500 e
    end.

(** [paidSessions.add(id)]: a set keeps one copy of each member. *)
Definition add (paidSessions : list string) (id : string) : list string :=
  if has paidSessions id then paidSessions else (paidSessions ++ [id])%list.

Inductive webhook_reply : Type :=
| WebhookError (code : Z) (text : string)
| Received.

(** [POST /api/stripe-webhook].  Without a client, [stripe.webhooks] throws
    inside the [try], like a signature that does not verify. *)
Definition stripe_webhook (raw : string) (sig : option string)
           (paidSessions : list string) : list string * webhook_reply :=
  match (if stripe
         then constructEvent s raw sig STRIPE_WEBHOOK_SECRET
         else Throw "Cannot read properties of null (reading 'webhooks')")
  with
  | Throw message => (paidSessions, WebhookError 400 ("Webhook Error: " ++ message))
  | Ok event =>
      let paidSessions :=
        if String.eqb (type event) "checkout.session.completed"
        then add paidSessions (object_id event)
        else paidSessions in
      (paidSessions, Received)
  end.

End Routes.

End Payments.

(** ** The server as a whole: one request after the other *)

Inductive request : Type :=
| PostScan (body : Body.t)
| PostDeepscan (body : Body.t)
| PostCheckout (body : Body.t)
| PostWebhook (raw : string) (sig : option string).

Inductive response : Type :=
| Scanned (log : history) (r : result Reply.t)
| Checkout (r : Payments.checkout_reply)
| Webhook (r : Payments.webhook_reply).

(** One request against the set of paid sessions.  A handler reads or
    writes the set before its first [await], so the order in which the
    requests arrive decides what each one sees. *)
Definition handle (w : World) (s : Payments.Stripe) (paidSessions : list string)
           (req : request) : list string * response :=
  match req with
  | PostScan body =>
      (paidSessions, Scanned (fst (run (scan w body))) (snd (run (scan w body))))
  | PostDeepscan body =>
      (paidSessions,
       Scanned (fst (run (deepscan w paidSessions body)))
               (snd (run (deepscan w paidSessions body))))
  | PostCheckout body =>
      (paidSessions, Checkout (Payments.create_checkout_session s body))
  | PostWebhook raw sig =>
      (fst (Payments.stripe_webhook s raw sig paidSessions),
       Webhook (snd (Payments.stripe_webhook s raw sig paidSessions)))
  end.

Fixpoint serve (w : World) (s : Payments.Stripe) (paidSessions : list string)
         (reqs : list request) : list string * list response :=
  match reqs with
  | [] => (paidSessions, [])
  | req :: rest =>
      let (paid1, a) := handle w s paidSessions req in
      let (paid2, more) := serve w s paid1 rest in
      (paid2, a :: more)
  end.

(** From here on [++] joins lists; strings are joined inside [%string]. *)
Local Open Scope list_scope.

(* ================================================================== *)
(** * Vocabulary of the properties *)
(* ================================================================== *)

(** The last character of a word is in a class. *)
Definition ends_in (p : ascii -> bool) (w : word) : Prop :=
  exists w' c, w = (w' ++ [c])%list /\ p c = true.

(** A string contains a token, letter case apart: some run of consecutive
    characters of the string is the token once both are upper-cased. *)
Definition contains_ci (token s : string) : Prop :=
  exists before run after,
    list_ascii_of_string s = (before ++ run ++ after)%list
    /\ map canonicalize run = map canonicalize (list_ascii_of_string token).

(** ** The score, in the words of its description *)

Definition clamp (lo hi x : Z) : Z := Z.max lo (Z.min hi x).

Definition adjustment (applies : bool) (points : Z) : Z :=
  if applies then points else 0.

(** A check was attempted (its flag is present) and failed (it is [false]). *)
Definition https_check_failed (out : Out.t) : Prop :=
  exists c, Out.checks out = Some c /\ Checks.https c = Some false.

Definition registry_lookup_failed (out : Out.t) : Prop :=
  exists c, Out.checks out = Some c /\ Checks.rdap c = Some false.

(** The geo record names a network operator that contains the token. *)
Definition operator_is_cloud_provider (out : Out.t) : Prop :=
  exists g name,
    Out.geo out = Some (Some g) /\ isp g = Some name /\ contains_ci "google" name.

(** ** Port probes *)

(** The status [scanPorts] records for a probe, by how its socket ended. *)
Definition status_after (o : socket_outcome) : string :=
  match o with
  | Connected => "open"
  | TimedOut => "closed"
  | Errored _ => "closed"
  | ConnectThrows _ => "error"
  end.

(** What one probe adds to the log. *)
Definition probe_events (host : string) (p : Z) : list event :=
  [Call_scanPort host p default_timeout; Io_connect p host].

(** ** Collaborator failures *)

(** A fetch fails by a network error or a timeout (the promise rejects), by
    a response that is not a success, or by a body that does not parse. *)
Definition fetch_failed {B} (r : result (Response.t B)) : Prop :=
  match r with
  | Throw _ => True
  | Ok r => Response.ok r = false \/ exists e, Response.json r = Throw e
  end.

(** The HTTPS check reads no body: it fails by a rejected request or by a
    response that is not a success. *)
Definition not_ok {B} (r : result (Response.t B)) : Prop :=
  match r with
  | Throw _ => True
  | Ok r => Response.ok r = false
  end.

(** A lookup that has no response object fails by rejecting. *)
Definition rejected {A} (r : result A) : Prop :=
  match r with
  | Throw _ => True
  | Ok _ => False
  end.

(** What each helper makes of its collaborator's answer. *)
Definition address_or_null (r : result string) : option string :=
  match r with
  | Ok a => Some a
  | Throw _ => None
  end.

Definition geo_or_null (r : result (Response.t (option GeoRecord)))
  : option GeoRecord :=
  match r with
  | Ok r => if Response.ok r
            then match Response.json r with Ok g => g | Throw _ => None end
            else None
  | Throw _ => None
  end.

Definition json_or_null (r : result (Response.t json)) : json :=
  match r with
  | Ok r => if Response.ok r
            then match Response.json r with Ok j => j | Throw _ => JNull end
            else JNull
  | Throw _ => JNull
  end.

Definition record_or_null (r : result json) : json :=
  match r with
  | Ok j => j
  | Throw _ => JNull
  end.

(** [{ error: message }] *)
Definition error_record (message : string) : json :=
  JObj [("error", JStr message)].

Definition json_or_error (r : result (Response.t json)) : json :=
  match r with
  | Ok r => if Response.ok r
            then match Response.json r with Ok j => j | Throw e => error_record e end
            else error_record ("shodan:" ++ string_of_Z (Response.status r))
  | Throw e => error_record e
  end.

(** The URLs the helpers fetch. *)
Definition geo_url (ip : string) : string :=
  "http://ip-api.com/json/" ++ ip
  ++ "?fields=status,message,country,regionName,city,isp,org,query,as".

Definition rdap_url (target type : string) : string :=
  if String.eqb type "ip"
  then "https://rdap.org/ip/" ++ target
  else "https://rdap.org/domain/" ++ target.

Definition site_url (target : string) : string := "https://" ++ target.

Definition shodan_url (ip key : string) : string :=
  "https://api.shodan.io/shodan/host/" ++ ip ++ "?key=" ++ key.

(** [b] is what the world answered to the call [oracle _ x], at some point
    of the request. *)
Definition answers {X B} (oracle : history -> X -> B) (x : X) (b : B) : Prop :=
  exists h, b = oracle h x.

(** ** What a handler did, read off its log *)

(** The TCP connects attempted, oldest first. *)
Definition connects (h : history) : list (Z * string) :=
  flat_map (fun e => match e with
                     | Io_connect p host => [(p, host)]
                     | _ => []
                     end) h.

(** The event belongs to the threat enrichment: the helper was entered, or
    its service was fetched. *)
Definition is_enrichment (e : event) : bool :=
  match e with
  | Call_shodanLookup _ => true
  | Io_fetch url => String.prefix "https://api.shodan.io/" url
  | _ => false
  end.

Definition enrichments (h : history) : list event := filter is_enrichment h.

(** ** Classification *)

(** The kind [/api/scan] works with: [type || (... ? "ip" : "domain")]. *)
Definition basic_kind (body : Body.t) : string :=
  if truthy_str (Body.type body)
  then text (Body.type body)
  else if test_anchored IPV4_RE (text (Body.target body)) then "ip" else "domain".

(** The kind [/api/deepscan] works with; it stores none, and tells the
    three cases apart by [isDomain] and by the address it ends up with. *)
Inductive Kind : Type := Domain | IP | Unclassified.

Definition deep_kind (target : string) : Kind :=
  if test_anchored DOMAIN_RE target then Domain
  else if test_anchored IPV4_RE target then IP
  else Unclassified.

(** ** What the record of [/api/scan] shows

    Each field a collaborator fills holds what the helper made of the
    collaborator's answer. *)

(** The flag and the status code the HTTPS check leaves. *)
Definition https_flag (a : result (Response.t json)) : bool :=
  match a with
  | Ok r => Response.ok r
  | Throw _ => false
  end.

Definition https_status_code (a : result (Response.t json)) : option Z :=
  match a with
  | Ok r => Some (Response.status r)
  | Throw _ => None
  end.

Definition basic_record_shows (w : World) (target t : string) (out : Out.t) : Prop :=
  ((String.eqb t "domain" || String.eqb t "ip")%bool = true ->
     (exists a, answers (fetch w) (rdap_url target t) a
                /\ Out.rdap out = Some (json_or_null a)
                /\ out_checks_rdap out = Some (truthy (json_or_null a)))
     /\ ((Out.resolved_ip out = Some None /\ Out.geo out = None)
         \/ (exists ip a, Out.resolved_ip out = Some (Some ip)
                          /\ answers (fetch_geo w) (geo_url ip) a
                          /\ Out.geo out = Some (geo_or_null a))))
  /\ (String.eqb t "domain" = true ->
        (exists a, answers (whoiser w) target a
                   /\ Out.whois out = Some (record_or_null a))
        /\ (exists a, answers (dns_lookup w) target a
                      /\ Out.resolved_ip out = Some (or_null (address_or_null a)))
        /\ (exists a, answers (fetch w) (site_url target) a
                      /\ out_checks_https out = Some (https_flag a)
                      /\ Out.https_status out = https_status_code a))
  /\ (String.eqb t "domain" = false ->
        Out.whois out = None /\ out_checks_https out = None
        /\ Out.https_status out = None).

(** ** What the record of [/api/deepscan] shows *)

(** Either no address came out, and nothing that needs one ran; or one
    did, and every common port was probed on it, once and in order. *)
Definition deep_ports_scanned (h h' : history) (out : Out.t) (d : Details.t) : Prop :=
  (Out.resolved_ip out = Some None
   /\ Details.geo d = None /\ Details.ports d = None /\ Details.shodan d = None
   /\ connects h' = connects h)
  \/ (exists ip ps,
        Out.resolved_ip out = Some (Some ip)
        /\ Details.ports d = Some ps
        /\ map Port.port ps = COMMON_PORTS
        /\ connects h' = (connects h ++ map (fun p => (p, ip)) COMMON_PORTS)%list).

(** Without a key the enrichment is neither entered nor fetched and leaves
    no field; with a key and an address, the field holds what
    [shodanLookup] made of the service's answer. *)
Definition deep_enrichment (w : World) (h h' : history) (out : Out.t) (d : Details.t)
  : Prop :=
  (SHODAN_KEY w = None ->
   Details.shodan d = None /\ enrichments h' = enrichments h)
  /\ (forall key ip,
        SHODAN_KEY w = Some key -> Out.resolved_ip out = Some (Some ip) ->
        exists a,
          answers (fetch w) (shodan_url ip key) a
          /\ Details.shodan d = Some (json_or_error a)
          /\ enrichments h'
             = (enrichments h ++ [Call_shodanLookup ip;
                                  Io_fetch (shodan_url ip key)])%list).

Definition deep_record_shows (w : World) (target : string)
           (out : Out.t) (d : Details.t) : Prop :=
  (exists a,
      answers (fetch w)
              (rdap_url target (if test_anchored DOMAIN_RE target
                                then "domain" else "ip")) a
      /\ Details.rdap d = Some (json_or_null a))
  /\ (test_anchored DOMAIN_RE target = true ->
        (exists a, answers (whoiser w) target a
                   /\ Details.whois d = Some (record_or_null a))
        /\ (exists a, answers (dns_lookup w) target a
                      /\ Out.resolved_ip out = Some (or_null (address_or_null a))))
  /\ (forall ip,
        Out.resolved_ip out = Some (Some ip) ->
        exists a, answers (fetch_geo w) (geo_url ip) a
                  /\ Details.geo d = Some (geo_or_null a)).

(** ** What a failed answer becomes

    [null] for the registry, ownership, address and geo lookups; a [false]
    flag for the HTTPS check, with no status code when the request was
    rejected; a record with an [error] text, which is not [null], for the
    enrichment. *)
Definition failures_are_absorbed : Prop :=
  (forall a, fetch_failed a -> json_or_null a = JNull /\ truthy (json_or_null a) = false)
  /\ (forall a, fetch_failed a -> geo_or_null a = None)
  /\ (forall a, rejected a -> record_or_null a = JNull)
  /\ (forall a, rejected a -> or_null (address_or_null a) = None)
  /\ (forall a, not_ok a -> https_flag a = false)
  /\ (forall a, rejected a -> https_status_code a = None)
  /\ (forall a, fetch_failed a ->
                exists message,
                  json_or_error a = error_record message
                  /\ error_record message <> JNull).

(** ** Total correctness of an [async] body

    [returns m Q h]: run from the log [h], [m] ends without an exception,
    and [Q] holds of the log it leaves and of the value it gives. *)
Definition returns {A} (m : M A) (Q : history -> A -> Prop) (h : history) : Prop :=
  exists h' a, m h = (h', Ok a) /\ Q h' a.

(** ** Sample worlds and requests *)

(** No network at all: every lookup and fetch rejects, no host resolves,
    no enrichment key. *)
Definition offline : World :=
  {| env_SHODAN_API_KEY := None;
     clock := fun _ => "2024-01-01T00:00:00.000Z";
     dns_lookup := fun _ _ => Throw "getaddrinfo ENOTFOUND";
     fetch := fun _ _ => Throw "network error";
     fetch_geo := fun _ _ => Throw "network error";
     whoiser := fun _ _ => Throw "whois timeout";
     connect := fun _ _ _ _ => Errored "ENOTFOUND" |}.

(** Every collaborator answers; ports 80 and 443 accept, the others refuse. *)
Definition healthy : World :=
  {| env_SHODAN_API_KEY := None;
     clock := fun _ => "2024-01-01T00:00:00.000Z";
     dns_lookup := fun _ _ => Ok "93.184.216.34";
     fetch := fun _ _ =>
       Ok {| Response.ok := true; Response.status := 200;
             Response.json := Ok (JObj []) |};
     fetch_geo := fun _ _ =>
       Ok {| Response.ok := true; Response.status := 200;
             Response.json :=
               Ok (Some {| isp := Some "Example ISP"; geo_rest := [] |}) |};
     whoiser := fun _ _ => Ok (JObj []);
     connect := fun _ p _ _ =>
       if (Z.eqb p 80 || Z.eqb p 443)%bool then Connected
       else Errored "ECONNREFUSED" |}.

(** As [healthy], but every HTTP service answers 503 with a body that is
    not JSON. *)
Definition all_503 : World :=
  {| env_SHODAN_API_KEY := env_SHODAN_API_KEY healthy;
     clock := clock healthy;
     dns_lookup := dns_lookup healthy;
     fetch := fun _ _ =>
       Ok {| Response.ok := false; Response.status := 503;
             Response.json := Throw "Unexpected token < in JSON" |};
     fetch_geo := fetch_geo healthy;
     whoiser := whoiser healthy;
     connect := connect healthy |}.

(** A world with the enrichment key set. *)
Definition with_key (w : World) (key : string) : World :=
  {| env_SHODAN_API_KEY := Some key;
     clock := clock w;
     dns_lookup := dns_lookup w;
     fetch := fetch w;
     fetch_geo := fetch_geo w;
     whoiser := whoiser w;
     connect := connect w |}.

Definition basic_request (target : string) : Body.t :=
  {| Body.target := Some target; Body.type := None; Body.session_id := None |}.

Definition deep_request (target session : string) : Body.t :=
  {| Body.target := Some target; Body.type := None;
     Body.session_id := Some session |}.

(** ** Further vocabulary: strings and patterns *)

(** Two strings spell the same once upper-cased. *)
Definition same_letters (s1 s2 : string) : Prop :=
  map canonicalize (list_ascii_of_string s1)
  = map canonicalize (list_ascii_of_string s2).

(** A non-empty run of decimal digits. *)
Definition digits (w : word) : Prop :=
  w <> [] /\ Forall (fun c => digit c = true) w.

(** The characters of a host name: letters, digits, the dot and the
    hyphen. *)
Definition host_char (c : ascii) : bool :=
  (letter c || digit c || Ascii.eqb c "." || Ascii.eqb c "-")%bool.

(** ** Further vocabulary: the log of a route *)

Definition geo_events (ip : option string) : list event :=
  match ip with
  | Some a => [Call_ipGeo a; Io_fetch (geo_url a)]
  | None => []
  end.

(** [out.resolved_ip], when it is an address. *)
Definition address_of (out : Out.t) : option string :=
  match Out.resolved_ip out with
  | Some (Some a) => Some a
  | _ => None
  end.

(** What [/api/scan] does for a kind, in order, [ip] being the address it
    works with. *)
Definition basic_trace (target t : string) (ip : option string) : list event :=
  if String.eqb t "domain" then
    [Call_rdapLookup target t; Io_fetch (rdap_url target t);
     Call_whoisLookup target; Io_whoiser target;
     Call_resolveToIp target; Io_dns_lookup target]
    ++ geo_events ip
    ++ [Io_fetch (site_url target); Io_db_run target t]
  else if String.eqb t "ip" then
    [Call_rdapLookup target t; Io_fetch (rdap_url target t)]
    ++ geo_events ip
    ++ [Io_db_run target t]
  else [Io_db_run target t].

(** What [/api/deepscan] does once paid for, in order. *)
Definition deep_trace (target : string) (ip key : option string) : list event :=
  (match deep_kind target with
   | Domain =>
       [Call_whoisLookup target; Io_whoiser target;
        Call_rdapLookup target "domain"; Io_fetch (rdap_url target "domain");
        Call_resolveToIp target; Io_dns_lookup target]
   | _ => [Call_rdapLookup target "ip"; Io_fetch (rdap_url target "ip")]
   end)
  ++ (match ip with
      | Some a =>
          geo_events ip
          ++ flat_map (probe_events a) COMMON_PORTS
          ++ (match key with
              | Some k => [Call_shodanLookup a; Io_fetch (shodan_url a k)]
              | None => []
              end)
      | None => []
      end)
  ++ [Io_db_run target "deepscan"].

(** The rows handed to the [scans] table, oldest first: target and type. *)
Definition stored (h : history) : list (string * string) :=
  flat_map (fun e => match e with
                     | Io_db_run target type => [(target, type)]
                     | _ => []
                     end) h.

(** The calls that leave the process for the network. *)
Definition is_network (e : event) : bool :=
  match e with
  | Io_dns_lookup _ | Io_fetch _ | Io_whoiser _ | Io_connect _ _ => true
  | _ => false
  end.

(** The entries a scan of [ports] leaves, the log being [h] when it
    starts: each port with the status of its own socket. *)
Fixpoint probe_results (w : World) (host : string) (ports : list Z) (h : history)
  : list Port.t :=
  match ports with
  | [] => []
  | p :: rest =>
      {| Port.port := p;
         Port.status :=
           status_after (connect w (h ++ [Call_scanPort host p default_timeout])
                                 p host default_timeout) |}
      :: probe_results w host rest (h ++ probe_events host p)
  end.

(** ** Further vocabulary: payments *)

(** The webhook request carries a verified "checkout.session.completed"
    event for the session [id]. *)
Definition attests (s : Payments.Stripe) (req : request) (id : string) : Prop :=
  exists raw sig event,
    req = PostWebhook raw sig
    /\ Payments.stripe s = true
    /\ Payments.constructEvent s raw sig (Payments.STRIPE_WEBHOOK_SECRET s) = Ok event
    /\ Payments.type event = "checkout.session.completed"
    /\ Payments.object_id event = id.

(** A Stripe side with a secret, whose only valid signature is "t=1,v1=ok"
    and whose events are all completed checkouts of session "cs_paid_1". *)
Definition sample_stripe : Payments.Stripe :=
  {| Payments.env_STRIPE_SECRET_KEY := Some "sk_test_1";
     Payments.env_STRIPE_WEBHOOK_SECRET := Some "whsec_1";
     Payments.env_PUBLIC_URL := None;
     Payments.constructEvent := fun _ sig _ =>
       if truthy_str sig && String.eqb (text sig) "t=1,v1=ok"
       then Ok {| Payments.type := "checkout.session.completed";
                  Payments.object_id := "cs_paid_1" |}
       else Throw "No signatures found matching the expected signature";
     Payments.sessions_create := fun _ => Ok "https://checkout.stripe.com/c/pay/cs_paid_1" |}.

(** The same without the secret key. *)
Definition stripe_without_secret : Payments.Stripe :=
  {| Payments.env_STRIPE_SECRET_KEY := None;
     Payments.env_STRIPE_WEBHOOK_SECRET := Payments.env_STRIPE_WEBHOOK_SECRET sample_stripe;
     Payments.env_PUBLIC_URL := None;
     Payments.constructEvent := Payments.constructEvent sample_stripe;
     Payments.sessions_create := Payments.sessions_create sample_stripe |}.

(** A record as [/api/scan] leaves it for an address whose operator is
    [name], before the score is set. *)
Definition record_of_operator (name : string) : Out.t :=
  {| Out.target := "8.8.8.8"; Out.type := Some "ip";
     Out.when := "2024-01-01T00:00:00.000Z";
     Out.checks := Some {| Checks.rdap := Some true; Checks.https := None |};
     Out.rdap := Some (JObj []); Out.whois := None;
     Out.resolved_ip := Some (Some "8.8.8.8");
     Out.geo := Some (Some {| isp := Some name; geo_rest := [] |});
     Out.https_status := None; Out.hints := None; Out.details := None;
     Out.score := None |}.

(** A request for a kind the basic scan has no lookups for. *)
Definition handle_request : Body.t :=
  {| Body.target := Some "octocat"; Body.type := Some "username";
     Body.session_id := None |}.

(* ================================================================== *)
(** * The matcher decides the meaning of a pattern *)
(* ================================================================== *)

Section MatcherCorrect.

Lemma Matches_nil_Seq r1 r2 :
  Matches (Seq r1 r2) [] -> Matches r1 [] /\ Matches r2 [].
Proof.
  intros H. inversion H as [ | | ? ? w1 w2 H1 H2 | | | | ]; subst.
  match goal with E : (_ ++ _)%list = [] |- _ =>
    apply app_eq_nil in E; destruct E; subst end.
  split; assumption.
Qed.

Lemma nullable_Matches r : nullable r = true <-> Matches r [].
Proof.
  induction r as [ | | p | r1 IH1 r2 IH2 | r1 IH1 r2 IH2 | r IH ]; simpl.
  - split; [discriminate | intros H; inversion H].
  - split; [intros _; constructor | reflexivity].
  - split; [discriminate | intros H; inversion H].
  - rewrite andb_true_iff, IH1, IH2. split.
    + intros [H1 H2]. change (@nil ascii) with (@nil ascii ++ [])%list.
      constructor; assumption.
    + apply Matches_nil_Seq.
  - rewrite orb_true_iff, IH1, IH2. split.
    + intros [H | H]; [apply MAltL | apply MAltR]; assumption.
    + intros H. inversion H; subst; [left | right]; assumption.
  - split; [intros _; constructor | reflexivity].
Qed.

(** A non-empty word of [r*] starts with a non-empty word of [r]. *)
Lemma Matches_Star_cons r c w :
  Matches (Star r) (c :: w) ->
  exists w1 w2, w = (w1 ++ w2)%list /\ Matches r (c :: w1) /\ Matches (Star r) w2.
Proof.
  intros H. remember (Star r) as s eqn:Es. remember (c :: w) as cw eqn:Ew.
  revert Es Ew.
  induction H as [ | | | | | | r' w1 w2 H1 _ H2 IH2 ]; try discriminate.
  intros Es Ew. injection Es as ->.
  destruct w1 as [ | c1 w1 ].
  - simpl in Ew. apply IH2; [reflexivity | assumption].
  - simpl in Ew. injection Ew as Ec Ew. subst c1 w.
    exists w1, w2. repeat split; assumption.
Qed.

Lemma deriv_Matches c r : forall w, Matches (deriv c r) w <-> Matches r (c :: w).
Proof.
  induction r as [ | | p | r1 IH1 r2 IH2 | r1 IH1 r2 IH2 | r IH ]; intros w; simpl.
  - split; intros H; inversion H.
  - split; intros H; inversion H.
  - destruct (p c) eqn:Ep; split; intros H.
    + inversion H; subst. constructor. assumption.
    + inversion H; subst. constructor.
    + inversion H.
    + inversion H; subst. congruence.
  - assert (Hcons : forall w1 w2, Matches (deriv c r1) w1 -> Matches r2 w2 ->
                                  Matches (Seq r1 r2) (c :: w1 ++ w2)%list).
    { intros w1 w2 H1 H2. change (c :: w1 ++ w2)%list with ((c :: w1) ++ w2)%list.
      constructor; [apply IH1 | ]; assumption. }
    assert (Hsplit : Matches (Seq r1 r2) (c :: w) ->
                     (exists w1 w2, w = (w1 ++ w2)%list /\ Matches (deriv c r1) w1
                                    /\ Matches r2 w2)
                     \/ (Matches r1 [] /\ Matches (deriv c r2) w)).
    { intros H. inversion H as [ | | ? ? w1 w2 H1 H2 | | | | ]; subst.
      match goal with E : (_ ++ _)%list = _ :: _ |- _ =>
        destruct w1 as [ | c1 w1 ]; simpl in E;
        [ subst w2 | injection E as Ec Ew; subst c1 w ] end.
      - right. split; [assumption | apply IH2; assumption].
      - left. exists w1, w2.
        repeat split; [apply IH1 | ]; assumption. }
    destruct (nullable r1) eqn:En; split; intros H.
    + inversion H as [ | | | ? ? ? H' | ? ? ? H' | | ]; subst.
      * inversion H'; subst. apply Hcons; assumption.
      * change (c :: w) with ([] ++ c :: w)%list. constructor.
        -- apply nullable_Matches; assumption.
        -- apply IH2; assumption.
    + destruct (Hsplit H) as [(w1 & w2 & -> & H1 & H2) | [_ H2]].
      * apply MAltL. constructor; assumption.
      * apply MAltR. assumption.
    + inversion H; subst. apply Hcons; assumption.
    + destruct (Hsplit H) as [(w1 & w2 & -> & H1 & H2) | [H1 _]].
      * constructor; assumption.
      * apply nullable_Matches in H1. congruence.
  - split; intros H; inversion H; subst;
      ((apply MAltL; apply IH1; assumption) || (apply MAltR; apply IH2; assumption)).
  - split; intros H.
    + inversion H as [ | | ? ? w1 w2 H1 H2 | | | | ]; subst.
      change (c :: w1 ++ w2)%list with ((c :: w1) ++ w2)%list.
      constructor; [apply IH | ]; assumption.
    + apply Matches_Star_cons in H. destruct H as (w1 & w2 & -> & H1 & H2).
      constructor; [apply IH | ]; assumption.
Qed.

Theorem accepts_Matches : forall w r, accepts r w = true <-> Matches r w.
Proof.
  induction w as [ | c w IH ]; intros r; simpl.
  - apply nullable_Matches.
  - rewrite IH. apply deriv_Matches.
Qed.

End MatcherCorrect.

(* ================================================================== *)
(** * Facts about the three patterns *)
(* ================================================================== *)

Section Patterns.

Lemma all_code_units_complete (a : ascii) : In a all_code_units.
Proof.
  unfold all_code_units. rewrite <- (ascii_nat_embedding a).
  apply in_map. apply in_seq. pose proof (nat_ascii_bounded a). lia.
Qed.

(** Under [i], a one-character class matches the characters that
    canonicalize like its member. *)
Lemma ignore_case_eqb (a c : ascii) :
  ignore_case (Ascii.eqb a) c = true <-> canonicalize a = canonicalize c.
Proof.
  unfold ignore_case. rewrite existsb_exists. split.
  - intros (x & _ & H). apply andb_true_iff in H. destruct H as [Hx Hc].
    apply Ascii.eqb_eq in Hx. apply Ascii.eqb_eq in Hc. subst x. exact Hc.
  - intros H. exists a. split; [apply all_code_units_complete | ].
    rewrite Ascii.eqb_refl. simpl. apply Ascii.eqb_eq. exact H.
Qed.

(** Under [i], [[a-z]] is the ASCII letters of either case, and no more. *)
Lemma ignore_case_a_z (c : ascii) : ignore_case (range "a" "z") c = letter c.
Proof.
  destruct c as [[] [] [] [] [] [] [] []]; vm_compute; reflexivity.
Qed.

Lemma digit_not_letter (c : ascii) : digit c = true -> letter c = false.
Proof.
  destruct c as [[] [] [] [] [] [] [] []]; vm_compute; congruence.
Qed.

Lemma ends_in_app p (w1 w2 : word) : ends_in p w2 -> ends_in p (w1 ++ w2)%list.
Proof.
  intros (w' & c & -> & Hc). exists (w1 ++ w')%list, c.
  split; [apply app_assoc | exact Hc].
Qed.

Lemma ends_in_unique p q (w : word) :
  ends_in p w -> ends_in q w -> exists c, p c = true /\ q c = true.
Proof.
  intros (w1 & c1 & -> & H1) (w2 & c2 & E & H2).
  apply app_inj_tail in E. destruct E as [_ ->]. exists c2. split; assumption.
Qed.

Lemma Matches_Seq_ends p r1 r2 (w : word) :
  (forall w2, Matches r2 w2 -> ends_in p w2) ->
  Matches (Seq r1 r2) w -> ends_in p w.
Proof.
  intros Hr2 H. inversion H; subst. apply ends_in_app. apply Hr2. assumption.
Qed.

Lemma Matches_Star_Class p (w : word) :
  Matches (Star (Class p)) w -> w = [] \/ ends_in p w.
Proof.
  intros H. remember (Star (Class p)) as s eqn:Es. revert Es.
  induction H as [ | | | | | | r w1 w2 H1 _ H2 IH2 ]; try discriminate.
  - intros _. left. reflexivity.
  - intros Es. injection Es as ->. right.
    destruct (IH2 eq_refl) as [-> | Hw2].
    + rewrite app_nil_r. inversion H1; subst. exists [], c. split; [reflexivity | assumption].
    + apply ends_in_app. exact Hw2.
Qed.

Lemma Matches_Plus_Class p (w : word) :
  Matches (Plus (Class p)) w -> ends_in p w.
Proof.
  unfold Plus. intros H. inversion H as [ | | ? ? w1 w2 H1 H2 | | | | ]; subst.
  destruct (Matches_Star_Class H2) as [-> | Hw2].
  - rewrite app_nil_r. inversion H1; subst. exists [], c. split; [reflexivity | assumption].
  - apply ends_in_app. exact Hw2.
Qed.

(** A dotted quad ends in a digit, a domain-like name in a letter. *)
Lemma IPV4_RE_ends (w : word) : Matches IPV4_RE w -> ends_in digit w.
Proof.
  unfold IPV4_RE.
  do 6 (apply Matches_Seq_ends; intros ?).
  apply Matches_Plus_Class.
Qed.

Lemma DOMAIN_RE_ends (w : word) : Matches DOMAIN_RE w -> ends_in letter w.
Proof.
  unfold DOMAIN_RE. simpl icase.
  do 3 (apply Matches_Seq_ends; intros ?).
  intros H. apply Matches_Plus_Class in H. destruct H as (w' & c & -> & Hc).
  exists w', c. split; [reflexivity | ]. rewrite <- ignore_case_a_z. exact Hc.
Qed.

(** No string matches both patterns, so the order in which a handler tries
    them does not matter. *)
Lemma ipv4_is_not_domain (s : string) :
  test_anchored IPV4_RE s = true -> test_anchored DOMAIN_RE s = false.
Proof.
  unfold test_anchored. intros Hip.
  destruct (accepts DOMAIN_RE (list_ascii_of_string s)) eqn:Hdom; [ | reflexivity].
  apply accepts_Matches in Hip. apply accepts_Matches in Hdom.
  destruct (ends_in_unique (IPV4_RE_ends Hip) (DOMAIN_RE_ends Hdom)) as (c & Hd & Hl).
  apply digit_not_letter in Hd. congruence.
Qed.

(** A string that matches either pattern is not empty. *)
Lemma ipv4_is_truthy (s : string) :
  test_anchored IPV4_RE s = true -> truthy_str (Some s) = true.
Proof.
  destruct s; [vm_compute; discriminate | reflexivity].
Qed.

Lemma Matches_Star_any (w : word) : Matches (Star (Class any)) w.
Proof.
  induction w as [ | c w IH ]; [constructor | ].
  change (c :: w) with ([c] ++ w)%list. constructor; [ | exact IH].
  constructor. reflexivity.
Qed.

(** [/r/.test(s)] looks for a word of [r] anywhere in [s]. *)
Lemma test_search_Matches r (s : string) :
  test_search r s = true <->
  exists before run after,
    list_ascii_of_string s = (before ++ run ++ after)%list /\ Matches r run.
Proof.
  unfold test_search. rewrite accepts_Matches. split.
  - intros H. inversion H as [ | | ? ? w1 w23 M1 M23 E | | | | ]; subst.
    inversion M23 as [ | | ? ? w2 w3 M2 M3 | | | | ]; subst.
    exists w1, w2, w3. split; [reflexivity | assumption].
  - intros (w1 & w2 & w3 & -> & H2).
    constructor; [apply Matches_Star_any | ].
    constructor; [exact H2 | apply Matches_Star_any].
Qed.

(** Under [i], a literal matches the words that canonicalize like it. *)
Lemma Matches_icase_Lit (t w : word) :
  Matches (icase (Lit t)) w <-> map canonicalize w = map canonicalize t.
Proof.
  revert w. induction t as [ | a t IH ]; intros w; simpl.
  - split.
    + intros H. inversion H. reflexivity.
    + intros H. apply map_eq_nil in H. subst w. constructor.
  - split.
    + intros H. inversion H as [ | | ? ? w1 w2 H1 H2 | | | | ]; subst.
      inversion H1 as [ | ? c Hc | | | | | ]; subst. simpl.
      apply ignore_case_eqb in Hc. apply IH in H2. congruence.
    + destruct w as [ | c w ]; [discriminate | ]. simpl. intros H.
      injection H as Hc Hw. change (c :: w) with ([c] ++ w)%list.
      constructor.
      * constructor. apply ignore_case_eqb. congruence.
      * apply IH. exact Hw.
Qed.

Lemma GOOGLE_RE_contains (s : string) :
  test_search GOOGLE_RE s = true <-> contains_ci "google" s.
Proof.
  rewrite test_search_Matches. unfold contains_ci, GOOGLE_RE.
  split; intros (w1 & w2 & w3 & E & H); exists w1, w2, w3; split; trivial;
    apply Matches_icase_Lit; exact H.
Qed.

End Patterns.

(* ================================================================== *)
(** * ScoreEngine *)
(* ================================================================== *)

Section Score.

Lemma is_false_https (out : Out.t) :
  is_false (out_checks_https out) = true <-> https_check_failed out.
Proof.
  unfold out_checks_https, https_check_failed, is_false. split.
  - destruct (Out.checks out) as [c | ]; [ | discriminate].
    destruct (Checks.https c) as [[] | ] eqn:E; try discriminate.
    intros _. exists c. split; [reflexivity | exact E].
  - intros (c & -> & ->). reflexivity.
Qed.

Lemma is_false_rdap (out : Out.t) :
  is_false (out_checks_rdap out) = true <-> registry_lookup_failed out.
Proof.
  unfold out_checks_rdap, registry_lookup_failed, is_false. split.
  - destruct (Out.checks out) as [c | ]; [ | discriminate].
    destruct (Checks.rdap c) as [[] | ] eqn:E; try discriminate.
    intros _. exists c. split; [reflexivity | exact E].
  - intros (c & -> & ->). reflexivity.
Qed.

Lemma contains_ci_nonempty (token : string) :
  token <> "" -> ~ contains_ci token "".
Proof.
  intros Ht (w1 & w2 & w3 & E & H). simpl in E. symmetry in E.
  apply app_eq_nil in E. destruct E as [_ E].
  apply app_eq_nil in E. destruct E as [-> _].
  destruct token; [congruence | discriminate].
Qed.

Lemma isp_is_google_spec (out : Out.t) :
  isp_is_google out = true <-> operator_is_cloud_provider out.
Proof.
  unfold isp_is_google, out_geo_isp, operator_is_cloud_provider. split.
  - destruct (Out.geo out) as [[g | ] | ]; try discriminate.
    destruct (isp g) as [name | ] eqn:E; [ | discriminate].
    intros H. apply andb_true_iff in H. destruct H as [_ H].
    exists g, name. repeat split; trivial. apply GOOGLE_RE_contains. exact H.
  - intros (g & name & -> & -> & H). apply andb_true_iff. split.
    + destruct name; [ | reflexivity].
      exfalso. revert H. apply contains_ci_nonempty. discriminate.
    + apply GOOGLE_RE_contains. exact H.
Qed.

Lemma heuristicScore_unfold (out : Out.t) :
  heuristicScore out =
  clamp 0 100 (50 + adjustment (is_false (out_checks_https out)) 15
                  + adjustment (is_false (out_checks_rdap out)) 10
                  - adjustment (isp_is_google out) 8).
Proof.
  unfold heuristicScore, clamp, adjustment.
  destruct (is_false (out_checks_https out)), (is_false (out_checks_rdap out)),
           (isp_is_google out); reflexivity.
Qed.

Lemma heuristicScore_bounds (out : Out.t) : 0 <= heuristicScore out <= 100.
Proof. unfold heuristicScore. lia. Qed.

(** C1: the score is the stated formula.  From a baseline of 50 it adds 15
    when an attempted HTTPS check failed, adds 10 when an attempted registry
    lookup failed, takes 8 off when the operator name of the geo record
    contains the token "google" whatever the letter case, and clamps the sum
    to [0, 100].  It is a function of the record's [checks] and [geo] alone:
    it runs outside the monad of effects, and two records that agree on
    those two fields get the same score.  With no failed check and no
    operator match the score is 50. *)
Theorem heuristicScore_is_the_formula (out : Out.t) :
  exists https_failed rdap_failed cloud : bool,
    (https_failed = true <-> https_check_failed out) /\
    (rdap_failed = true <-> registry_lookup_failed out) /\
    (cloud = true <-> operator_is_cloud_provider out) /\
    heuristicScore out =
      clamp 0 100 (50 + adjustment https_failed 15 + adjustment rdap_failed 10
                      - adjustment cloud 8) /\
    0 <= heuristicScore out <= 100 /\
    (https_failed = false -> rdap_failed = false -> cloud = false ->
     heuristicScore out = 50) /\
    (forall out', Out.checks out' = Out.checks out -> Out.geo out' = Out.geo out ->
                  heuristicScore out' = heuristicScore out).
Proof.
  exists (is_false (out_checks_https out)), (is_false (out_checks_rdap out)),
         (isp_is_google out).
  split; [apply is_false_https | ].
  split; [apply is_false_rdap | ].
  split; [apply isp_is_google_spec | ].
  split; [apply heuristicScore_unfold | ].
  split; [apply heuristicScore_bounds | ].
  split.
  - intros H1 H2 H3. rewrite heuristicScore_unfold, H1, H2, H3. reflexivity.
  - intros out' Hc Hg.
    unfold heuristicScore, out_checks_https, out_checks_rdap, isp_is_google,
      out_geo_isp.
    rewrite Hc, Hg. reflexivity.
Qed.

End Score.

(* ================================================================== *)
(** * PortScanner *)
(* ================================================================== *)

Section PortScanner.

Variable w : World.

(** One turn of the loop of [scanPorts]: whatever the socket does, one
    result comes out, for the port asked. *)
Lemma probe_step (host : string) (p : Z) (h : history) :
  try_catch (scanPort w host p default_timeout)
            (fun _ => ret {| Port.port := p; Port.status := "error" |}) h
  = ((h ++ probe_events host p)%list,
     Ok {| Port.port := p;
           Port.status :=
             status_after
               (connect w (h ++ [Call_scanPort host p default_timeout])%list
                        p host default_timeout) |}).
Proof.
  unfold try_catch, scanPort, bind, emit, perform, ret, probe_events.
  rewrite <- app_assoc. simpl.
  destruct (connect w _ p host default_timeout); reflexivity.
Qed.

Lemma scanPorts_from_total (host : string) (ports : list Z) :
  forall (acc : list Port.t) (h : history),
  exists out,
    scanPorts_from w host ports acc h
    = ((h ++ flat_map (probe_events host) ports)%list, Ok (acc ++ out)%list)
    /\ map Port.port out = ports.
Proof.
  induction ports as [ | p rest IH ]; intros acc h; simpl.
  - exists []. rewrite !app_nil_r. split; reflexivity.
  - unfold bind at 1. rewrite probe_step.
    destruct (IH (acc ++ [{| Port.port := p;
                             Port.status :=
                               status_after
                                 (connect w (h ++ [Call_scanPort host p default_timeout])%list
                                          p host default_timeout) |}])%list
                 (h ++ probe_events host p)%list) as (out & E & Hout).
    eexists (_ :: out). rewrite E. rewrite <- !app_assoc. simpl.
    split; [reflexivity | ]. rewrite Hout. reflexivity.
Qed.

(** C3: for every host and every list of ports, [scanPorts] returns, and
    what it returns has one entry per port, in the order of the list, each
    carrying the port of its position.  A probe that throws does not stop
    the loop: the call never ends in an exception, and every port of the
    list is probed once, in order. *)
Theorem scanPorts_one_result_per_port (host : string) (ports : list Z) (h : history) :
  exists out,
    scanPorts w host ports h
    = ((h ++ flat_map (probe_events host) ports)%list, Ok out)
    /\ List.length out = List.length ports
    /\ map Port.port out = ports
    /\ (forall i p, nth_error ports i = Some p ->
                    exists r, nth_error out i = Some r /\ Port.port r = p).
Proof.
  destruct (scanPorts_from_total host ports [] h) as (out & E & Hout).
  exists out. split; [exact E | ].
  split; [rewrite <- Hout; symmetry; apply length_map | ].
  split; [exact Hout | ].
  intros i p Hi. rewrite <- Hout in Hi. rewrite nth_error_map in Hi.
  destruct (nth_error out i) as [r | ]; [ | discriminate].
  exists r. split; [reflexivity | ]. simpl in Hi. congruence.
Qed.

(** C6, as the code has it: the status of a probe is "open" exactly when
    the connect completed before the timeout; an elapsed timeout and every
    failure the socket reports through its 'error' event (a refused
    connection, and a host that does not resolve as well) give "closed";
    "error" is given exactly when the connect call itself throws. *)
Theorem probe_status_by_outcome (host : string) (p : Z) (h : history) :
  let o := connect w (h ++ [Call_scanPort host p default_timeout])
                   p host default_timeout in
  exists r,
    snd (scanPorts w host [p] h) = Ok [r]
    /\ Port.port r = p
    /\ (Port.status r = "open" <-> o = Connected)
    /\ (o = TimedOut -> Port.status r = "closed")
    /\ (forall code, o = Errored code -> Port.status r = "closed")
    /\ (Port.status r = "error" <-> exists message, o = ConnectThrows message).
Proof.
  intros o. unfold scanPorts. simpl. unfold bind at 1. rewrite probe_step.
  fold o. eexists. split; [reflexivity | ]. simpl.
  split; [reflexivity | ].
  destruct o; simpl; repeat split; intros; try discriminate; try reflexivity;
    try congruence;
    try match goal with
        | Hthrows : exists _, _ = ConnectThrows _ |- _ =>
            destruct Hthrows as [? Hthrows]; discriminate Hthrows
        end.
  eexists. reflexivity.
Qed.

(** C6, as stated, fails on a host that does not resolve: the failure
    reaches [scanPort] as an 'error' event, and the port is reported
    "closed", not "error". *)
Lemma unresolved_host_is_reported_closed :
  connect offline [Call_scanPort "no-such-host.invalid" 80 default_timeout]
          80 "no-such-host.invalid" default_timeout
  = Errored "ENOTFOUND"
  /\ snd (run (scanPorts offline "no-such-host.invalid" [80]))
     = Ok [{| Port.port := 80; Port.status := "closed" |}]
  /\ "closed" <> "error".
Proof. repeat split. discriminate. Qed.

End PortScanner.

(* ================================================================== *)
(** * The helpers absorb every failure *)
(* ================================================================== *)

Section HelpersRun.

Variable w : World.

Lemma resolveToIp_run (host : string) (h : history) :
  resolveToIp w host h
  = ((h ++ [Call_resolveToIp host; Io_dns_lookup host])%list,
     Ok (address_or_null (dns_lookup w (h ++ [Call_resolveToIp host])%list host))).
Proof.
  unfold resolveToIp, try_catch, bind, emit, perform, ret.
  rewrite <- app_assoc. simpl.
  destruct (dns_lookup w _ host); reflexivity.
Qed.

Lemma ipGeo_run (ip : string) (h : history) :
  ipGeo w ip h
  = ((h ++ [Call_ipGeo ip; Io_fetch (geo_url ip)])%list,
     Ok (geo_or_null (fetch_geo w (h ++ [Call_ipGeo ip])%list (geo_url ip)))).
Proof.
  unfold ipGeo, try_catch, bind, emit, perform, ret, await, geo_or_null.
  fold (geo_url ip). rewrite <- app_assoc. simpl.
  destruct (fetch_geo w _ (geo_url ip)) as [r | e]; [ | reflexivity].
  destruct (Response.ok r); [ | reflexivity].
  destruct (Response.json r); reflexivity.
Qed.

Lemma rdapLookup_run (target type : string) (h : history) :
  rdapLookup w target type h
  = ((h ++ [Call_rdapLookup target type; Io_fetch (rdap_url target type)])%list,
     Ok (json_or_null (fetch w (h ++ [Call_rdapLookup target type])%list
                             (rdap_url target type)))).
Proof.
  unfold rdapLookup, try_catch, bind, emit, perform, ret, await, json_or_null.
  fold (rdap_url target type). rewrite <- app_assoc. simpl.
  destruct (fetch w _ (rdap_url target type)) as [r | e]; [ | reflexivity].
  destruct (Response.ok r); [ | reflexivity].
  destruct (Response.json r); reflexivity.
Qed.

Lemma whoisLookup_run (domain : string) (h : history) :
  whoisLookup w domain h
  = ((h ++ [Call_whoisLookup domain; Io_whoiser domain])%list,
     Ok (record_or_null (whoiser w (h ++ [Call_whoisLookup domain])%list domain))).
Proof.
  unfold whoisLookup, try_catch, bind, emit, perform, ret.
  rewrite <- app_assoc. simpl.
  destruct (whoiser w _ domain); reflexivity.
Qed.

Lemma shodanLookup_run (ip key : string) (h : history) :
  SHODAN_KEY w = Some key ->
  shodanLookup w ip h
  = ((h ++ [Call_shodanLookup ip; Io_fetch (shodan_url ip key)])%list,
     Ok (json_or_error (fetch w (h ++ [Call_shodanLookup ip])%list
                              (shodan_url ip key)))).
Proof.
  intros Hkey.
  unfold shodanLookup, try_catch, bind, emit, perform, ret, await, json_or_error.
  rewrite Hkey. fold (shodan_url ip key). rewrite <- app_assoc. simpl.
  destruct (fetch w _ (shodan_url ip key)) as [r | e]; [ | reflexivity].
  destruct (Response.ok r); [ | reflexivity].
  destruct (Response.json r); reflexivity.
Qed.

Lemma shodanLookup_without_key (ip : string) (h : history) :
  SHODAN_KEY w = None ->
  shodanLookup w ip h = ((h ++ [Call_shodanLookup ip])%list, Ok JNull).
Proof.
  intros Hkey. unfold shodanLookup, bind, emit, ret. rewrite Hkey. reflexivity.
Qed.

(** A failed fetch or lookup leaves [null]; a failed enrichment leaves an
    error record, which is not [null]. *)
Lemma geo_or_null_failed r (F : fetch_failed r) : geo_or_null r = None.
Proof.
  destruct r as [r | e]; simpl in *; [ | reflexivity].
  destruct F as [-> | [e ->]]; [reflexivity | ].
  destruct (Response.ok r); reflexivity.
Qed.

Lemma json_or_null_failed r (F : fetch_failed r) : json_or_null r = JNull.
Proof.
  destruct r as [r | e]; simpl in *; [ | reflexivity].
  destruct F as [-> | [e ->]]; [reflexivity | ].
  destruct (Response.ok r); reflexivity.
Qed.

Lemma json_or_error_failed r (F : fetch_failed r) :
  exists message, json_or_error r = error_record message.
Proof.
  destruct r as [r | e]; simpl in *; [ | eexists; reflexivity].
  destruct F as [-> | [e ->]]; [eexists; reflexivity | ].
  destruct (Response.ok r); eexists; reflexivity.
Qed.

Lemma address_or_null_rejected r (F : rejected r) : address_or_null r = None.
Proof. destruct r; simpl in *; [contradiction | reflexivity]. Qed.

Lemma record_or_null_rejected r (F : rejected r) : record_or_null r = JNull.
Proof. destruct r; simpl in *; [contradiction | reflexivity]. Qed.

End HelpersRun.

(* ================================================================== *)
(** * Rules for [returns] *)
(* ================================================================== *)

Section Returns.

Context {A B : Type}.

Lemma returns_ret (a : A) (Q : history -> A -> Prop) h :
  Q h a -> returns (ret a) Q h.
Proof. intros H. exists h, a. split; [reflexivity | exact H]. Qed.

Lemma returns_bind (m : M A) (f : A -> M B) (Q : history -> B -> Prop) h :
  returns m (fun h1 a => returns (f a) Q h1) h -> returns (bind m f) Q h.
Proof.
  intros (h1 & a & Em & h2 & b & Ef & HQ). exists h2, b.
  split; [ | exact HQ]. unfold bind. rewrite Em. exact Ef.
Qed.

(** A body that returns never reaches its [catch]. *)
Lemma returns_try (m : M A) (k : string -> M A) (Q : history -> A -> Prop) h :
  returns m Q h -> returns (try_catch m k) Q h.
Proof.
  intros (h1 & a & Em & HQ). exists h1, a.
  split; [ | exact HQ]. unfold try_catch. rewrite Em. reflexivity.
Qed.

(** A body that throws hands over to its [catch]. *)
Lemma returns_catch (m : M A) (k : string -> M A) (Q : history -> A -> Prop) h h1 e :
  m h = (h1, Throw e) -> returns (k e) Q h1 -> returns (try_catch m k) Q h.
Proof.
  intros Em (h2 & a & Ek & HQ). exists h2, a.
  split; [ | exact HQ]. unfold try_catch. rewrite Em. exact Ek.
Qed.

Lemma returns_run (m : M A) (Q : history -> A -> Prop) h h1 a :
  m h = (h1, Ok a) -> Q h1 a -> returns m Q h.
Proof. intros Em HQ. exists h1, a. split; assumption. Qed.

End Returns.

Lemma returns_conseq {A} (m : M A) (Q Q' : history -> A -> Prop) h :
  returns m Q h -> (forall h' a, Q h' a -> Q' h' a) -> returns m Q' h.
Proof.
  intros (h' & a & E & HQ) Himp. exists h', a. split; [exact E | auto].
Qed.

Lemma returns_emit (e : event) (Q : history -> unit -> Prop) h :
  Q (h ++ [e])%list tt -> returns (emit e) Q h.
Proof. apply returns_run. reflexivity. Qed.

Lemma returns_now (w : World) (Q : history -> string -> Prop) h :
  Q h (clock w h) -> returns (now w) Q h.
Proof. apply returns_run. reflexivity. Qed.

Lemma returns_in_checks (o : Out.t) c f (Q : history -> Out.t -> Prop) h :
  Out.checks o = Some c -> Q h (with_checks o (f c)) -> returns (in_checks o f) Q h.
Proof. intros E. apply returns_run. unfold in_checks. rewrite E. reflexivity. Qed.

Lemma returns_in_details (o : Out.t) d f (Q : history -> Out.t -> Prop) h :
  Out.details o = Some d -> Q h (with_details o (f d)) -> returns (in_details o f) Q h.
Proof. intros E. apply returns_run. unfold in_details. rewrite E. reflexivity. Qed.

(** ** The helpers, as steps of a handler *)

Section HelperRules.

Variable w : World.

Lemma returns_resolveToIp host (Q : history -> option string -> Prop) h :
  (forall a, answers (dns_lookup w) host a ->
             Q (h ++ [Call_resolveToIp host; Io_dns_lookup host])%list
               (address_or_null a)) ->
  returns (resolveToIp w host) Q h.
Proof.
  intros HQ. eapply returns_run; [apply resolveToIp_run | ].
  apply HQ. eexists. reflexivity.
Qed.

Lemma returns_ipGeo ip (Q : history -> option GeoRecord -> Prop) h :
  (forall a, answers (fetch_geo w) (geo_url ip) a ->
             Q (h ++ [Call_ipGeo ip; Io_fetch (geo_url ip)])%list (geo_or_null a)) ->
  returns (ipGeo w ip) Q h.
Proof.
  intros HQ. eapply returns_run; [apply ipGeo_run | ].
  apply HQ. eexists. reflexivity.
Qed.

Lemma returns_rdapLookup target type (Q : history -> json -> Prop) h :
  (forall a, answers (fetch w) (rdap_url target type) a ->
             Q (h ++ [Call_rdapLookup target type;
                      Io_fetch (rdap_url target type)])%list
               (json_or_null a)) ->
  returns (rdapLookup w target type) Q h.
Proof.
  intros HQ. eapply returns_run; [apply rdapLookup_run | ].
  apply HQ. eexists. reflexivity.
Qed.

Lemma returns_whoisLookup domain (Q : history -> json -> Prop) h :
  (forall a, answers (whoiser w) domain a ->
             Q (h ++ [Call_whoisLookup domain; Io_whoiser domain])%list
               (record_or_null a)) ->
  returns (whoisLookup w domain) Q h.
Proof.
  intros HQ. eapply returns_run; [apply whoisLookup_run | ].
  apply HQ. eexists. reflexivity.
Qed.

Lemma returns_shodanLookup ip key (Q : history -> json -> Prop) h :
  SHODAN_KEY w = Some key ->
  (forall a, answers (fetch w) (shodan_url ip key) a ->
             Q (h ++ [Call_shodanLookup ip; Io_fetch (shodan_url ip key)])%list
               (json_or_error a)) ->
  returns (shodanLookup w ip) Q h.
Proof.
  intros Hkey HQ. eapply returns_run; [apply shodanLookup_run; exact Hkey | ].
  apply HQ. eexists. reflexivity.
Qed.

Lemma returns_scanPorts host ports (Q : history -> list Port.t -> Prop) h :
  (forall out, map Port.port out = ports ->
               Q (h ++ flat_map (probe_events host) ports)%list out) ->
  returns (scanPorts w host ports) Q h.
Proof.
  intros HQ. destruct (scanPorts_from_total w host ports [] h) as (out & E & Hout).
  eapply returns_run; [exact E | ]. apply HQ. exact Hout.
Qed.

(** The HTTPS check of [/api/scan], with its own [try]/[catch]: either the
    response sets the flag and the status code, or the [catch] sets the
    flag to [false]. *)
Lemma returns_https_check (target : string) (out : Out.t) (c : Checks.t)
      (Q : history -> Out.t -> Prop) (h : history) :
  Out.checks out = Some c ->
  (forall a, answers (fetch w) (site_url target) a ->
     Q (h ++ [Io_fetch (site_url target)])
       (match a with
        | Ok r => set_https_status
                    (with_checks out (checks_https (Response.ok r) c))
                    (Response.status r)
        | Throw _ => with_checks out (checks_https false c)
        end)) ->
  returns
    (try_catch
       (let url := site_url target in
        r <- perform (Io_fetch url) (fun h => fetch w h url) ;;
        out <- in_checks out (checks_https (Response.ok r)) ;;
        ret (set_https_status out (Response.status r)))
       (fun _ => in_checks out (checks_https false)))
    Q h.
Proof.
  intros Ec HQ. cbv zeta.
  assert (Ha : answers (fetch w) (site_url target) (fetch w h (site_url target)))
    by (eexists; reflexivity).
  specialize (HQ _ Ha). clear Ha.
  destruct (fetch w h (site_url target)) as [r | e] eqn:Ef.
  - apply returns_try. apply returns_bind.
    eapply returns_run; [unfold perform; rewrite Ef; reflexivity | ].
    apply returns_bind. eapply returns_in_checks; [exact Ec | ].
    apply returns_ret. exact HQ.
  - eapply returns_catch.
    + unfold bind, perform. rewrite Ef. reflexivity.
    + eapply returns_in_checks; [exact Ec | exact HQ].
Qed.

End HelperRules.

(** One step through an [async] body whose next statement cannot throw. *)
Ltac step :=
  lazymatch goal with
  | |- returns (bind _ _) _ _ => apply returns_bind
  | |- returns (ret _) _ _ => apply returns_ret
  | |- returns (rdapLookup _ _ _) _ _ => apply returns_rdapLookup; intros ? ?
  | |- returns (whoisLookup _ _) _ _ => apply returns_whoisLookup; intros ? ?
  | |- returns (resolveToIp _ _) _ _ => apply returns_resolveToIp; intros ? ?
  | |- returns (ipGeo _ _) _ _ => apply returns_ipGeo; intros ? ?
  | |- returns (scanPorts _ _ _) _ _ => apply returns_scanPorts; intros ? ?
  | |- returns (try_catch (bind (perform _ _) _) _) _ _ =>
      eapply (returns_https_check _ _ _ (c := _));
      [reflexivity | intros [? | ?] ?]
  | |- returns (in_checks _ _) _ _ => eapply returns_in_checks; [reflexivity | ]
  | |- returns (in_details _ _) _ _ => eapply returns_in_details; [reflexivity | ]
  | |- returns (emit _) _ _ => apply returns_emit
  | |- returns (now _) _ _ => apply returns_now
  end.

(** ** Reading the log *)

Lemma connects_app (h1 h2 : history) :
  connects (h1 ++ h2) = (connects h1 ++ connects h2)%list.
Proof. apply flat_map_app. Qed.

Lemma connects_probe_events host ports :
  connects (flat_map (probe_events host) ports) = map (fun p => (p, host)) ports.
Proof.
  induction ports as [ | p ports IH ]; [reflexivity | ].
  simpl. f_equal. exact IH.
Qed.

Lemma enrichments_app (h1 h2 : history) :
  enrichments (h1 ++ h2) = (enrichments h1 ++ enrichments h2)%list.
Proof. apply filter_app. Qed.

Lemma enrichments_probe_events host ports :
  enrichments (flat_map (probe_events host) ports) = [].
Proof.
  induction ports as [ | p ports IH ]; [reflexivity | exact IH].
Qed.

(** The connects, or the enrichment events, of a log that grew by known
    events. *)
Ltac read_log :=
  rewrite ?connects_app, ?connects_probe_events,
          ?enrichments_app, ?enrichments_probe_events;
  unfold rdap_url, geo_url, shodan_url, site_url; simpl;
  rewrite ?app_nil_r; reflexivity.

Lemma or_null_truthy ip : truthy_str (Some ip) = true -> or_null (Some ip) = Some ip.
Proof. unfold or_null. intros ->. reflexivity. Qed.

Lemma or_null_falsy ip : truthy_str ip = false -> or_null ip = None.
Proof. unfold or_null. intros ->. reflexivity. Qed.

(** A field holds the helper's image of an answer the handler got. *)
Ltac settle :=
  repeat match goal with
         | E : address_or_null _ = _ |- _ => rewrite E
         end;
  rewrite ?or_null_truthy by assumption;
  rewrite ?or_null_falsy by assumption;
  reflexivity.

Ltac shown :=
  first [ settle
        | eexists; split; [eassumption | repeat split; settle]
        | left; split; settle
        | right; do 2 eexists; split; [settle | split; [eassumption | settle]] ].

(* ================================================================== *)
(** * ScanOrchestrator: the basic profile *)
(* ================================================================== *)

Section BasicProfile.

Variable w : World.

Ltac basic_done :=
  eexists; split; [reflexivity | ];
  unfold out_checks_rdap, out_checks_https;
  rewrite ?or_null_truthy by assumption;
  rewrite ?or_null_falsy by assumption;
  simpl;
  split; [reflexivity | ];
  split; [reflexivity | ];
  split; [reflexivity | ];
  split; [reflexivity | ];
  split; [read_log | ];
  split; [ | split];
  (let Hkind := fresh "Hkind" in
   intros Hkind; try discriminate Hkind; clear Hkind);
  repeat match goal with |- _ /\ _ => split end;
  shown.

Lemma scan_runs (body : Body.t) (h : history) :
  truthy_str (Body.target body) = true ->
  returns (scan w body)
    (fun h' r =>
       exists out,
         r = reply 200 (OutJson out)
         /\ Out.target out = text (Body.target body)
         /\ Out.type out = Some (basic_kind body)
         /\ Out.details out = None
         /\ Out.score out = Some (heuristicScore out)
         /\ connects h' = connects h
         /\ basic_record_shows w (text (Body.target body)) (basic_kind body) out) h.
Proof.
  intros Ht. unfold scan. rewrite Ht. simpl negb. cbv iota.
  fold (basic_kind body). set (t := basic_kind body).
  set (target := text (Body.target body)).
  assert (Htarget : truthy_str (Some target) = true)
    by (subst target; destruct (Body.target body); [exact Ht | discriminate Ht]).
  clearbody t target. clear Ht.
  unfold basic_record_shows.
  apply returns_bind, returns_now.
  apply returns_try. apply returns_bind.
  destruct (String.eqb t "domain") eqn:Ed.
  - apply String.eqb_eq in Ed. subst t.
    change (String.eqb "domain" "ip") with false. cbv iota. simpl orb. cbv iota.
    repeat step.
    match goal with |- context [truthy_str (address_or_null ?a)] =>
      destruct (address_or_null a) as [ip | ] eqn:Ea;
      [destruct (truthy_str (Some ip)) eqn:Eip | ] end.
    + cbn [text]. repeat step; basic_done.
    + repeat step; basic_done.
    + cbn [truthy_str]. repeat step; basic_done.
  - destruct (String.eqb t "ip") eqn:Ei; simpl orb; cbv iota.
    + apply String.eqb_eq in Ei. subst t. clear Ed.
      repeat step.
      rewrite Htarget. cbn [text]. repeat step; basic_done.
    + repeat step; basic_done.
Qed.

End BasicProfile.

(* ================================================================== *)
(** * ScanOrchestrator: the deep profile *)
(* ================================================================== *)

Section DeepProfile.

Variable w : World.

Lemma firstn_COMMON_PORTS : firstn 20 COMMON_PORTS = COMMON_PORTS.
Proof. reflexivity. Qed.


Lemma SHODAN_KEY_truthy key : SHODAN_KEY w = Some key -> truthy_str (Some key) = true.
Proof.
  unfold SHODAN_KEY. destruct (truthy_str (env_SHODAN_API_KEY w)) eqn:E; [ | discriminate].
  intros Hk. rewrite Hk in E. exact E.
Qed.

Ltac deep_done :=
  eexists; eexists; split; [reflexivity | ];
  rewrite ?or_null_truthy by assumption;
  rewrite ?or_null_falsy by assumption;
  simpl;
  split; [reflexivity | ];
  split; [reflexivity | ];
  split; [reflexivity | ];
  split; [reflexivity | ];
  simpl;
  split; [reflexivity | ];
  split; [first [discriminate | intros _; reflexivity] | ];
  split; [first [discriminate | intros _; reflexivity] | ];
  split; [split; [intros; discriminate | intros Hw; try reflexivity;
                  exfalso; apply Hw; reflexivity] | ];
  split;
  [ first [ left; repeat split; trivial; read_log
          | right; eexists; eexists; repeat split; trivial; read_log ] | ];
  split;
  [ split;
    [ first [discriminate | intros _; split; [reflexivity | read_log]]
    | let Ek := fresh "Ek" in
      let Ei := fresh "Ei" in
      intros ? ? Ek Ei;
      first [ discriminate Ek
            | discriminate Ei
            | injection Ek as <-; injection Ei as <-;
              eexists; split; [eassumption | ];
              split; [reflexivity | read_log] ] ]
  | split; [shown | ];
    split;
    [ let Hdom := fresh "Hdom" in
      intros Hdom; first [discriminate Hdom | split; shown]
    | let Ei := fresh "Ei" in
      intros ? Ei;
      first [ discriminate Ei
            | injection Ei as <-; eexists; split; [eassumption | reflexivity] ] ] ].

Lemma deepscan_runs (paidSessions : list string) (body : Body.t) (h : history) :
  truthy_str (Body.target body) = true ->
  truthy_str (Body.session_id body) = true ->
  has paidSessions (text (Body.session_id body)) = true ->
  returns (deepscan w paidSessions body)
    (fun h' r =>
       exists out d,
         r = reply 200 (OutJson out)
         /\ Out.target out = text (Body.target body)
         /\ Out.checks out = None
         /\ Out.geo out = None
         /\ Out.details out = Some d
         /\ Out.score out = Some 50
         /\ (deep_kind (text (Body.target body)) = IP ->
              Out.resolved_ip out = Some (Some (text (Body.target body))))
         /\ (deep_kind (text (Body.target body)) = Unclassified ->
              Out.resolved_ip out = Some None)
         /\ (deep_kind (text (Body.target body)) = Domain <->
              Details.whois d <> None)
         /\ deep_ports_scanned h h' out d
         /\ deep_enrichment w h h' out d
         /\ deep_record_shows w (text (Body.target body)) out d) h.
Proof.
  intros Ht Hs Hpaid. unfold deepscan. rewrite Ht, Hs, Hpaid.
  cbn [negb orb]. cbv iota. rewrite firstn_COMMON_PORTS.
  unfold deep_ports_scanned. remember COMMON_PORTS as ports eqn:Eports. clear Eports.
  set (target := text (Body.target body)).
  assert (Htarget : truthy_str (Some target) = true)
    by (subst target; destruct (Body.target body); [exact Ht | discriminate Ht]).
  clearbody target. clear Ht Hs Hpaid.
  apply returns_try. apply returns_bind, returns_now.
  unfold deep_kind, deep_enrichment, deep_record_shows.
  destruct (test_anchored DOMAIN_RE target) eqn:Edom.
  - repeat step.
    match goal with |- context [truthy_str (address_or_null ?a)] =>
      destruct (address_or_null a) as [ip | ] eqn:Ea;
      [destruct (truthy_str (Some ip)) eqn:Eip | ] end.
    + cbn [text]. repeat step.
      destruct (SHODAN_KEY w) as [key | ] eqn:Ekey.
      * rewrite (SHODAN_KEY_truthy Ekey).
        apply returns_bind. eapply returns_shodanLookup; [exact Ekey | intros ? ?].
        repeat step. deep_done.
      * cbn [truthy_str]. repeat step. deep_done.
    + repeat step. deep_done.
    + cbn [truthy_str]. repeat step. deep_done.
  - repeat step.
    destruct (test_anchored IPV4_RE target) eqn:Eip4.
    + rewrite Htarget. cbn [text]. repeat step.
      destruct (SHODAN_KEY w) as [key | ] eqn:Ekey.
      * rewrite (SHODAN_KEY_truthy Ekey).
        apply returns_bind. eapply returns_shodanLookup; [exact Ekey | intros ? ?].
        repeat step. deep_done.
      * cbn [truthy_str]. repeat step. deep_done.
    + cbn [truthy_str]. repeat step. deep_done.
Qed.

End DeepProfile.

(* ================================================================== *)
(** * ScanOrchestrator: the contract of the two routes *)
(* ================================================================== *)

Section Contract.

Variable w : World.

Lemma truthy_target (body : Body.t) target :
  Body.target body = Some target -> truthy_str (Some target) = true ->
  truthy_str (Body.target body) = true /\ text (Body.target body) = target.
Proof. intros -> H. split; [exact H | reflexivity]. Qed.

(** The two early returns of [/api/deepscan] and the one of [/api/scan]
    leave the log as it was. *)
Lemma scan_missing_target (body : Body.t) (h : history) :
  truthy_str (Body.target body) = false ->
  scan w body h = (h, Ok (reply 400 (ErrorJson "missing target"))).
Proof. intros Ht. unfold scan. rewrite Ht. reflexivity. Qed.

Lemma deepscan_missing_input (paidSessions : list string) (body : Body.t) (h : history) :
  truthy_str (Body.target body) = false \/ truthy_str (Body.session_id body) = false ->
  deepscan w paidSessions body h
  = (h, Ok (reply 400 (ErrorJson "missing target or session_id"))).
Proof.
  intros H. unfold deepscan.
  destruct H as [-> | ->]; [reflexivity | ].
  rewrite orb_true_r. reflexivity.
Qed.

Lemma deepscan_unpaid (paidSessions : list string) (body : Body.t) (h : history) :
  truthy_str (Body.target body) = true ->
  truthy_str (Body.session_id body) = true ->
  has paidSessions (text (Body.session_id body)) = false ->
  deepscan w paidSessions body h
  = (h, Ok (reply 403 (ErrorJson "Pro access required (no valid payment session)"))).
Proof. intros Ht Hs Hp. unfold deepscan. rewrite Ht, Hs, Hp. reflexivity. Qed.

(** C5, as the code has it: a deep request whose session id is not among
    the paid ones gets no probe at all, the log is left as it was; the
    reply is the 403 "Pro access required" when target and session id are
    both present, and the 400 "missing target or session_id" when the
    session id (or the target) is absent or empty. *)
Theorem deepscan_denied_before_any_probe
        (paidSessions : list string) (body : Body.t) (h : history) :
  truthy_str (Body.session_id body) = false
  \/ has paidSessions (text (Body.session_id body)) = false ->
  exists code message,
    deepscan w paidSessions body h = (h, Ok (reply code (ErrorJson message)))
    /\ (code = 403 <->
        truthy_str (Body.target body) = true
        /\ truthy_str (Body.session_id body) = true)
    /\ (code = 400 <->
        truthy_str (Body.target body) = false
        \/ truthy_str (Body.session_id body) = false).
Proof.
  intros Hdenied.
  destruct (truthy_str (Body.target body)) eqn:Ht;
    [destruct (truthy_str (Body.session_id body)) eqn:Hs | ].
  - destruct Hdenied as [Hs' | Hp]; [discriminate | ].
    do 2 eexists. split; [apply deepscan_unpaid; assumption | ].
    split; split; intros; try discriminate; auto.
    destruct H; discriminate.
  - do 2 eexists. split; [apply deepscan_missing_input; right; exact Hs | ].
    split; split; intros; try discriminate; auto.
    destruct H; discriminate.
  - do 2 eexists. split; [apply deepscan_missing_input; left; exact Ht | ].
    split; split; intros; try discriminate; auto.
    destruct H; discriminate.
Qed.

(** C7, as the code has it: [/api/scan] answers the 400 client error
    exactly when the target is missing or empty, and [/api/deepscan]
    exactly when the target or the session id is; in both cases nothing
    has been probed, the log is left as it was.  A request that passes
    these checks never gets the 400. *)
Theorem invalid_input_exactly_when_input_is_missing
        (paidSessions : list string) (body : Body.t) (h : history) :
  (truthy_str (Body.target body) = false ->
   scan w body h = (h, Ok (reply 400 (ErrorJson "missing target"))))
  /\ (truthy_str (Body.target body) = true ->
      returns (scan w body) (fun _ r => Reply.code r = 200) h)
  /\ (truthy_str (Body.target body) = false
      \/ truthy_str (Body.session_id body) = false ->
      deepscan w paidSessions body h
      = (h, Ok (reply 400 (ErrorJson "missing target or session_id"))))
  /\ (truthy_str (Body.target body) = true ->
      truthy_str (Body.session_id body) = true ->
      returns (deepscan w paidSessions body)
              (fun _ r => Reply.code r = 403 \/ Reply.code r = 200) h).
Proof.
  split; [apply scan_missing_target | ].
  split.
  { intros Ht. eapply returns_conseq; [apply scan_runs; exact Ht | ].
    intros h' r (out & -> & _). reflexivity. }
  split; [apply deepscan_missing_input | ].
  intros Ht Hs.
  destruct (has paidSessions (text (Body.session_id body))) eqn:Hp.
  - eapply returns_conseq; [apply deepscan_runs; assumption | ].
    intros h' r (out & d & -> & _). right. reflexivity.
  - eapply returns_run; [apply deepscan_unpaid; assumption | ].
    left. reflexivity.
Qed.

(** C4, as the code has it.  With no explicit kind, [/api/scan] takes a
    target that matches the dotted-quad pattern for an IP and every other
    target for a domain; a third kind comes only from an explicit one.
    [/api/deepscan], which takes no explicit kind, takes a target that
    matches the domain-like pattern for a domain (it looks up its owner),
    one that matches the dotted-quad pattern for an IP (the target is the
    address), and any other for neither (there is no address).  So
    "93.184.216.34" is an IP and "example.com" a domain on both routes, and
    "not a domain!!" is a domain on the first and unclassified on the
    second. *)
Theorem classification_by_route :
  (forall body,
     truthy_str (Body.type body) = false ->
     basic_kind body
     = if test_anchored IPV4_RE (text (Body.target body)) then "ip" else "domain")
  /\ (forall body,
        basic_kind body <> "ip" -> basic_kind body <> "domain" ->
        truthy_str (Body.type body) = true)
  /\ (forall body h,
        truthy_str (Body.target body) = true ->
        returns (scan w body)
          (fun _ r => exists out,
               r = reply 200 (OutJson out)
               /\ Out.type out = Some (basic_kind body)) h)
  /\ (forall target, test_anchored IPV4_RE target = true -> deep_kind target = IP)
  /\ (forall target, test_anchored DOMAIN_RE target = true -> deep_kind target = Domain)
  /\ (forall target,
        test_anchored IPV4_RE target = false ->
        test_anchored DOMAIN_RE target = false ->
        deep_kind target = Unclassified)
  /\ (forall paidSessions body h,
        truthy_str (Body.target body) = true ->
        truthy_str (Body.session_id body) = true ->
        has paidSessions (text (Body.session_id body)) = true ->
        returns (deepscan w paidSessions body)
          (fun _ r => exists out d,
               r = reply 200 (OutJson out)
               /\ Out.details out = Some d
               /\ (deep_kind (text (Body.target body)) = IP ->
                   Out.resolved_ip out = Some (Some (text (Body.target body))))
               /\ (deep_kind (text (Body.target body)) = Unclassified ->
                   Out.resolved_ip out = Some None)
               /\ (deep_kind (text (Body.target body)) = Domain <->
                   Details.whois d <> None)) h)
  /\ basic_kind (basic_request "93.184.216.34") = "ip"
  /\ basic_kind (basic_request "example.com") = "domain"
  /\ basic_kind (basic_request "not a domain!!") = "domain"
  /\ deep_kind "93.184.216.34" = IP
  /\ deep_kind "example.com" = Domain
  /\ deep_kind "not a domain!!" = Unclassified.
Proof.
  split.
  { intros body Hty. unfold basic_kind. rewrite Hty. reflexivity. }
  split.
  { intros body Hip Hdom. unfold basic_kind in *.
    destruct (truthy_str (Body.type body)); [reflexivity | ].
    destruct (test_anchored IPV4_RE (text (Body.target body))); congruence. }
  split.
  { intros body h Ht. eapply returns_conseq; [apply scan_runs; exact Ht | ].
    intros h' r (out & -> & _ & Hty & _). exists out. split; [reflexivity | exact Hty]. }
  split.
  { intros target Hip. unfold deep_kind.
    rewrite (ipv4_is_not_domain _ Hip), Hip. reflexivity. }
  split.
  { intros target Hdom. unfold deep_kind. rewrite Hdom. reflexivity. }
  split.
  { intros target Hip Hdom. unfold deep_kind. rewrite Hdom, Hip. reflexivity. }
  split.
  { intros paidSessions body h Ht Hs Hp.
    eapply returns_conseq; [apply deepscan_runs; assumption | ].
    intros h' r (out & d & -> & _ & _ & _ & Hd & _ & Hip & Hun & Hdom & _).
    exists out, d. repeat split; trivial; apply Hdom. }
  repeat split; vm_compute; reflexivity.
Qed.

(** C8: with no enrichment key, [/api/deepscan] never enters
    [shodanLookup] and never fetches the enrichment service, and the record
    has no [shodan] field; with a key, [shodanLookup] turns every failed
    fetch (a rejected request, a response that is not a success, a body
    that does not parse) into a record with an [error] text, which is not
    [null], and that record is what the [shodan] field holds once an
    address came out. *)
Theorem enrichment_is_skipped_or_reports_its_error :
  (SHODAN_KEY w = None ->
   forall paidSessions body h,
     truthy_str (Body.target body) = true ->
     truthy_str (Body.session_id body) = true ->
     has paidSessions (text (Body.session_id body)) = true ->
     returns (deepscan w paidSessions body)
       (fun h' r => exists out d,
            r = reply 200 (OutJson out)
            /\ Out.details out = Some d
            /\ Details.shodan d = None
            /\ enrichments h' = enrichments h) h)
  /\ (forall key,
        SHODAN_KEY w = Some key ->
        (forall ip h,
           shodanLookup w ip h
           = (h ++ [Call_shodanLookup ip; Io_fetch (shodan_url ip key)],
              Ok (json_or_error (fetch w (h ++ [Call_shodanLookup ip])
                                       (shodan_url ip key)))))
        /\ (forall a, fetch_failed a ->
                      exists message,
                        json_or_error a = error_record message
                        /\ error_record message <> JNull)
        /\ (forall paidSessions body h,
              truthy_str (Body.target body) = true ->
              truthy_str (Body.session_id body) = true ->
              has paidSessions (text (Body.session_id body)) = true ->
              (forall h u, fetch_failed (fetch w h u)) ->
              returns (deepscan w paidSessions body)
                (fun h' r => exists out d,
                     r = reply 200 (OutJson out)
                     /\ Out.details out = Some d
                     /\ (forall ip, Out.resolved_ip out = Some (Some ip) ->
                                    exists message,
                                      Details.shodan d = Some (error_record message)))
                h)).
Proof.
  split.
  - intros Hkey paidSessions body h Ht Hs Hp.
    eapply returns_conseq; [apply deepscan_runs; assumption | ].
    intros h' r (out & d & -> & _ & _ & _ & Hd & _ & _ & _ & _ & _ & [Hno _] & _).
    exists out, d. destruct (Hno Hkey) as [Hsh Htr]. repeat split; assumption.
  - intros key Hkey. split; [ | split].
    + intros ip h. apply shodanLookup_run. exact Hkey.
    + intros a Ha. destruct (json_or_error_failed _ Ha) as [message E].
      exists message. split; [exact E | discriminate].
    + intros paidSessions body h Ht Hs Hp Hfail.
      eapply returns_conseq; [apply deepscan_runs; assumption | ].
      intros h' r (out & d & -> & _ & _ & _ & Hd & _ & _ & _ & _ & _ & [_ Hyes] & _).
      exists out, d. split; [reflexivity | ]. split; [exact Hd | ].
      intros ip Hip. destruct (Hyes key ip Hkey Hip) as (a & [hx ->] & Hsh & _).
      destruct (json_or_error_failed _ (Hfail hx (shodan_url ip key))) as [message E].
      exists message. rewrite Hsh, E. reflexivity.
Qed.

(** C9: a reply of [/api/scan] never carries ports (the only place a
    record has for them is [details.ports], and a basic record has no
    [details]) and the route opens no TCP connection; a paid
    [/api/deepscan] on a target that matches the dotted-quad pattern probes
    that address on every port of the fixed list, in its order, and the
    record holds one result per port.  The prefix the route takes,
    [COMMON_PORTS.slice(0, 20)], is the whole list. *)
Theorem ports_belong_to_the_deep_profile :
  (forall body h,
     exists h' r,
       scan w body h = (h', Ok r)
       /\ connects h' = connects h
       /\ (forall out, Reply.sent r = OutJson out -> Out.details out = None))
  /\ (forall paidSessions body target h,
        Body.target body = Some target ->
        test_anchored IPV4_RE target = true ->
        truthy_str (Body.session_id body) = true ->
        has paidSessions (text (Body.session_id body)) = true ->
        returns (deepscan w paidSessions body)
          (fun h' r => exists out d ps,
               r = reply 200 (OutJson out)
               /\ Out.details out = Some d
               /\ Details.ports d = Some ps
               /\ map Port.port ps = COMMON_PORTS
               /\ connects h' = connects h ++ map (fun p => (p, target)) COMMON_PORTS)
          h)
  /\ firstn 20 COMMON_PORTS = COMMON_PORTS
  /\ COMMON_PORTS = [80; 443; 21; 22; 25; 53; 110; 143; 161; 3306; 3389; 5900;
                     8080; 8443; 587; 993; 995; 2082; 2083; 8444].
Proof.
  split.
  { intros body h. destruct (truthy_str (Body.target body)) eqn:Ht.
    - destruct (scan_runs w body h Ht)
        as (h' & r & E & out & -> & _ & _ & Hd & _ & Hc & _).
      exists h', (reply 200 (OutJson out)). split; [exact E | ].
      split; [exact Hc | ]. intros out' Eo. injection Eo as <-. exact Hd.
    - exists h, (reply 400 (ErrorJson "missing target")).
      split; [apply scan_missing_target; exact Ht | ].
      split; [reflexivity | ]. intros out Eo. discriminate Eo. }
  split.
  { intros paidSessions body target h Hb Hip Hs Hp.
    destruct (truthy_target body Hb (ipv4_is_truthy _ Hip)) as [Ht Etxt].
    eapply returns_conseq; [apply deepscan_runs; assumption | ].
    intros h' r (out & d & -> & _ & _ & _ & Hd & _ & Hkind & _ & _ & Hports & _).
    rewrite Etxt in Hkind.
    assert (Hr : Out.resolved_ip out = Some (Some target)).
    { apply Hkind. unfold deep_kind.
      rewrite (ipv4_is_not_domain _ Hip), Hip. reflexivity. }
    destruct Hports as [(Hnone & _) | (ip & ps & Hsome & Hps & Hmap & Hc)].
    - rewrite Hr in Hnone. discriminate Hnone.
    - rewrite Hr in Hsome. injection Hsome as <-.
      exists out, d, ps. repeat split; assumption. }
  split; reflexivity.
Qed.

Lemma heuristicScore_without_checks_and_geo (out : Out.t) :
  Out.checks out = None -> Out.geo out = None -> heuristicScore out = 50.
Proof.
  intros Hc Hg.
  unfold heuristicScore, out_checks_https, out_checks_rdap, isp_is_google, out_geo_isp.
  rewrite Hc, Hg. reflexivity.
Qed.

(** C10: whatever the probes of a paid deep scan found, its score is 50.
    The record the route builds keeps its results under [details]; it has
    no [checks] and no top-level [geo], the only two fields
    [heuristicScore] reads, and without them the score is the baseline. *)
Theorem deep_score_is_the_baseline
        (paidSessions : list string) (body : Body.t) (h : history) :
  truthy_str (Body.target body) = true ->
  truthy_str (Body.session_id body) = true ->
  has paidSessions (text (Body.session_id body)) = true ->
  returns (deepscan w paidSessions body)
    (fun _ r => exists out,
         r = reply 200 (OutJson out)
         /\ Out.checks out = None
         /\ Out.geo out = None
         /\ Out.details out <> None
         /\ heuristicScore out = 50
         /\ Out.score out = Some 50) h.
Proof.
  intros Ht Hs Hp.
  eapply returns_conseq; [apply deepscan_runs; assumption | ].
  intros h' r (out & d & -> & _ & Hc & Hg & Hd & Hscore & _).
  exists out. split; [reflexivity | ].
  split; [exact Hc | ]. split; [exact Hg | ].
  split; [rewrite Hd; discriminate | ].
  split; [apply heuristicScore_without_checks_and_geo; assumption | exact Hscore].
Qed.

Lemma failed_answers_are_absorbed : failures_are_absorbed.
Proof.
  unfold failures_are_absorbed.
  split.
  { intros a F. rewrite (json_or_null_failed _ F). split; reflexivity. }
  split; [exact geo_or_null_failed | ].
  split; [exact record_or_null_rejected | ].
  split.
  { intros a F. rewrite (address_or_null_rejected _ F). reflexivity. }
  split.
  { intros [r | e] F; [exact F | reflexivity]. }
  split.
  { intros [r | e] F; [contradiction | reflexivity]. }
  intros a F. destruct (json_or_error_failed _ F) as [message E].
  exists message. split; [exact E | discriminate].
Qed.

(** C2, as the code has it: once the input checks (and, on the deep route,
    the payment check) are passed, no failure of a collaborator stops the
    scan; the reply is the record, with a score between 0 and 100.  Each
    field a collaborator fills holds what the helper made of its answer,
    and what a failure leaves depends on the collaborator: [null] for the
    registry, ownership, address and geo lookups (and no [geo] at all
    without an address); a [false] [https] flag for the HTTPS check,
    without a status code when the request itself was rejected; one entry
    per port for the port scan, whatever the sockets did; a record with an
    [error] text for the enrichment. *)
Theorem scans_absorb_every_failure :
  (forall body h,
     truthy_str (Body.target body) = true ->
     returns (scan w body)
       (fun _ r => exists out s,
            r = reply 200 (OutJson out)
            /\ Out.score out = Some s /\ 0 <= s <= 100
            /\ basic_record_shows w (text (Body.target body)) (basic_kind body) out)
       h)
  /\ (forall paidSessions body h,
        truthy_str (Body.target body) = true ->
        truthy_str (Body.session_id body) = true ->
        has paidSessions (text (Body.session_id body)) = true ->
        returns (deepscan w paidSessions body)
          (fun h' r => exists out d s,
               r = reply 200 (OutJson out)
               /\ Out.score out = Some s /\ 0 <= s <= 100
               /\ Out.details out = Some d
               /\ deep_record_shows w (text (Body.target body)) out d
               /\ deep_ports_scanned h h' out d
               /\ deep_enrichment w h h' out d) h)
  /\ failures_are_absorbed.
Proof.
  split; [ | split; [ | exact failed_answers_are_absorbed]].
  - intros body h Ht. eapply returns_conseq; [apply scan_runs; exact Ht | ].
    intros h' r (out & -> & _ & _ & _ & Hscore & _ & Hshows).
    exists out, (heuristicScore out). split; [reflexivity | ].
    split; [exact Hscore | ]. split; [apply heuristicScore_bounds | exact Hshows].
  - intros paidSessions body h Ht Hs Hp.
    eapply returns_conseq; [apply deepscan_runs; assumption | ].
    intros h' r (out & d & -> & _ & _ & _ & Hd & Hscore & _ & _ & _ & Hports
                 & Henrich & Hshows).
    exists out, d, 50. split; [reflexivity | ].
    split; [exact Hscore | ]. split; [lia | ].
    split; [exact Hd | ]. split; [exact Hshows | ].
    split; [exact Hports | exact Henrich].
Qed.

End Contract.

(* ================================================================== *)
(** * The contract on sample requests *)
(* ================================================================== *)

(** A forged session id, in a world where one session was paid: the 403,
    and an empty log. *)
Lemma forged_session_is_denied :
  has ["cs_paid_1"] "cs_forged" = false
  /\ exists message,
       deepscan healthy ["cs_paid_1"] (deep_request "10.0.0.1" "cs_forged") []
       = ([], Ok (reply 403 (ErrorJson message))).
Proof.
  split; [reflexivity | ].
  destruct (deepscan_denied_before_any_probe
              healthy ["cs_paid_1"] (deep_request "10.0.0.1" "cs_forged") []
              (or_intror eq_refl))
    as (code & message & E & H403 & _).
  exists message. rewrite E.
  rewrite (proj2 H403 (conj eq_refl eq_refl)). reflexivity.
Defined.

(** C5, as stated, fails when the token is absent: the reply is the 400 of
    a missing input, not the 403 of a denied authorization. *)
Lemma absent_session_id_is_a_400 :
  run (deepscan healthy ["cs_paid_1"]
         {| Body.target := Some "10.0.0.1"; Body.type := None;
            Body.session_id := None |})
  = ([], Ok (reply 400 (ErrorJson "missing target or session_id")))
  /\ 400 <> 403.
Proof. split; [reflexivity | discriminate]. Qed.

(** C7, as stated, fails on the deep route: a request with a target and an
    empty session id gets the 400. *)
Lemma target_without_session_is_a_400 :
  truthy_str (Body.target (deep_request "example.com" "")) = true
  /\ run (deepscan healthy ["cs_paid_1"] (deep_request "example.com" ""))
     = ([], Ok (reply 400 (ErrorJson "missing target or session_id"))).
Proof. split; reflexivity. Qed.

(** A paid deep request and a basic request with a target get no 400. *)
Lemma requests_with_their_inputs_get_no_400 :
  returns (scan offline (basic_request "example.com"))
          (fun _ r => Reply.code r = 200) []
  /\ returns (deepscan offline ["cs_paid_1"] (deep_request "example.com" "cs_paid_1"))
             (fun _ r => Reply.code r = 403 \/ Reply.code r = 200) [].
Proof.
  pose proof (invalid_input_exactly_when_input_is_missing
                offline ["cs_paid_1"] (deep_request "example.com" "cs_paid_1") [])
    as (_ & Hscan & _ & Hdeep).
  split; [exact (Hscan eq_refl) | exact (Hdeep eq_refl eq_refl)].
Defined.

(** C4, as stated, fails on the basic route: with no explicit kind, free
    text is taken for a domain, and the domain probes run on it. *)
Lemma free_text_is_a_domain_for_the_basic_scan :
  exists h out,
    run (scan offline (basic_request "not a domain!!"))
    = (h, Ok (reply 200 (OutJson out)))
    /\ Out.type out = Some "domain"
    /\ Out.hints out = None
    /\ In (Call_whoisLookup "not a domain!!") h.
Proof.
  do 2 eexists. split; [vm_compute; reflexivity | ].
  split; [reflexivity | ]. split; [reflexivity | ].
  simpl. auto.
Qed.

(** C2, as stated, fails on the HTTPS check: a site that answers 503 leaves
    no absent or null field, but a [false] flag and the status code. *)
Lemma failed_https_check_is_a_false_flag :
  exists h out,
    run (scan all_503 (basic_request "example.com"))
    = (h, Ok (reply 200 (OutJson out)))
    /\ not_ok (fetch all_503 [] (site_url "example.com"))
    /\ out_checks_https out = Some false
    /\ Out.https_status out = Some 503.
Proof.
  do 2 eexists. split; [vm_compute; reflexivity | ].
  repeat split.
Qed.

(** With no network at all, both routes still reply with a scored record. *)
Lemma offline_scans_are_scored :
  returns (scan offline (basic_request "example.com"))
    (fun _ r => exists out s,
         r = reply 200 (OutJson out)
         /\ Out.score out = Some s /\ 0 <= s <= 100
         /\ basic_record_shows offline "example.com"
                               (basic_kind (basic_request "example.com")) out)
    []
  /\ returns (deepscan offline ["cs_paid_1"] (deep_request "10.0.0.1" "cs_paid_1"))
       (fun h' r => exists out d s,
            r = reply 200 (OutJson out)
            /\ Out.score out = Some s /\ 0 <= s <= 100
            /\ Out.details out = Some d
            /\ deep_record_shows offline "10.0.0.1" out d
            /\ deep_ports_scanned [] h' out d
            /\ deep_enrichment offline [] h' out d)
       [].
Proof.
  destruct (scans_absorb_every_failure offline) as (Hscan & Hdeep & _).
  split.
  - exact (Hscan (basic_request "example.com") [] eq_refl).
  - exact (Hdeep ["cs_paid_1"] (deep_request "10.0.0.1" "cs_paid_1") []
                 eq_refl eq_refl eq_refl).
Defined.

(** Without a key nothing of the enrichment happens; with a key and a
    service that answers 503, the record holds the error. *)
Lemma enrichment_on_sample_worlds :
  (SHODAN_KEY healthy = None
   /\ returns (deepscan healthy ["cs_paid_1"] (deep_request "93.184.216.34" "cs_paid_1"))
        (fun h' r => exists out d,
             r = reply 200 (OutJson out)
             /\ Out.details out = Some d
             /\ Details.shodan d = None
             /\ enrichments h' = enrichments []) [])
  /\ (SHODAN_KEY (with_key all_503 "k3y") = Some "k3y"
      /\ (forall h u, fetch_failed (fetch (with_key all_503 "k3y") h u))
      /\ returns (deepscan (with_key all_503 "k3y") ["cs_paid_1"]
                           (deep_request "93.184.216.34" "cs_paid_1"))
           (fun h' r => exists out d,
                r = reply 200 (OutJson out)
                /\ Out.details out = Some d
                /\ (forall ip, Out.resolved_ip out = Some (Some ip) ->
                               exists message,
                                 Details.shodan d = Some (error_record message)))
           []).
Proof.
  split.
  - split; [reflexivity | ].
    exact (proj1 (enrichment_is_skipped_or_reports_its_error healthy) eq_refl
                 ["cs_paid_1"] (deep_request "93.184.216.34" "cs_paid_1") []
                 eq_refl eq_refl eq_refl).
  - split; [reflexivity | ].
    assert (Hfail : forall h u, fetch_failed (fetch (with_key all_503 "k3y") h u))
      by (intros h u; left; reflexivity).
    split; [exact Hfail | ].
    exact (proj2 (proj2 (proj2 (enrichment_is_skipped_or_reports_its_error
                                  (with_key all_503 "k3y")) "k3y" eq_refl))
                 ["cs_paid_1"] (deep_request "93.184.216.34" "cs_paid_1") []
                 eq_refl eq_refl eq_refl Hfail).
Defined.

(** A paid deep scan of an address probes the twenty ports on it. *)
Lemma deep_scan_of_an_address_probes_the_ports :
  test_anchored IPV4_RE "93.184.216.34" = true
  /\ returns (deepscan healthy ["cs_paid_1"] (deep_request "93.184.216.34" "cs_paid_1"))
       (fun h' r => exists out d ps,
            r = reply 200 (OutJson out)
            /\ Out.details out = Some d
            /\ Details.ports d = Some ps
            /\ map Port.port ps = COMMON_PORTS
            /\ connects h'
               = connects [] ++ map (fun p => (p, "93.184.216.34")) COMMON_PORTS)
       [].
Proof.
  split; [vm_compute; reflexivity | ].
  refine (proj1 (proj2 (ports_belong_to_the_deep_profile healthy))
                ["cs_paid_1"] (deep_request "93.184.216.34" "cs_paid_1")
                "93.184.216.34" [] eq_refl _ eq_refl eq_refl).
  vm_compute. reflexivity.
Defined.

(** A paid deep scan in a healthy world scores 50. *)
Lemma deep_score_on_a_healthy_world :
  returns (deepscan healthy ["cs_paid_1"] (deep_request "example.com" "cs_paid_1"))
    (fun _ r => exists out,
         r = reply 200 (OutJson out)
         /\ Out.checks out = None
         /\ Out.geo out = None
         /\ Out.details out <> None
         /\ heuristicScore out = 50
         /\ Out.score out = Some 50) [].
Proof.
  exact (deep_score_is_the_baseline
           healthy ["cs_paid_1"] (deep_request "example.com" "cs_paid_1") []
           eq_refl eq_refl eq_refl).
Defined.

(* ================================================================== *)
(** * Scenarios *)
(* ================================================================== *)

Example pattern_samples :
  test_anchored IPV4_RE "93.184.216.34" = true
  /\ test_anchored IPV4_RE "example.com" = false
  /\ test_anchored IPV4_RE "999.1.1.1000" = true
  /\ test_anchored DOMAIN_RE "Example.COM" = true
  /\ test_anchored DOMAIN_RE "93.184.216.34" = false
  /\ test_anchored DOMAIN_RE "not a domain!!" = false
  /\ test_search GOOGLE_RE "AS15169 GooGle LLC" = true
  /\ test_search GOOGLE_RE "Amazon.com, Inc." = false.
Proof. repeat split; vm_compute; reflexivity. Qed.

(** A basic scan of a domain with every collaborator answering: both
    flags true, the address set, score 50. *)
Example basic_scan_all_well :
  exists h out,
    run (scan healthy {| Body.target := Some "example.com";
                         Body.type := Some "domain";
                         Body.session_id := None |})
    = (h, Ok (reply 200 (OutJson out)))
    /\ Out.checks out = Some {| Checks.rdap := Some true; Checks.https := Some true |}
    /\ Out.resolved_ip out = Some (Some "93.184.216.34")
    /\ Out.score out = Some 50.
Proof. do 2 eexists. split; [vm_compute; reflexivity | repeat split]. Qed.

(** The same with every HTTP service failing: registry and HTTPS flags
    false, score 50 + 15 + 10. *)
Example basic_scan_http_down :
  exists h out,
    run (scan all_503 {| Body.target := Some "example.com";
                         Body.type := Some "domain";
                         Body.session_id := None |})
    = (h, Ok (reply 200 (OutJson out)))
    /\ Out.checks out = Some {| Checks.rdap := Some false; Checks.https := Some false |}
    /\ Out.rdap out = Some JNull
    /\ Out.score out = Some 75.
Proof. do 2 eexists. split; [vm_compute; reflexivity | repeat split]. Qed.

(** A record whose operator is Google and whose HTTPS check failed. *)
Example score_sample :
  heuristicScore
    {| Out.target := "example.com"; Out.type := Some "domain";
       Out.when := "2024-01-01T00:00:00.000Z";
       Out.checks := Some {| Checks.rdap := Some true; Checks.https := Some false |};
       Out.rdap := None; Out.whois := None; Out.resolved_ip := None;
       Out.geo := Some (Some {| isp := Some "GOOGLE-CLOUD"; geo_rest := [] |});
       Out.https_status := None; Out.hints := None; Out.details := None;
       Out.score := None |}
  = 57.
Proof. vm_compute. reflexivity. Qed.

(** The log of a deep scan that is not paid for is empty; the log of a paid
    one on an address starts with the registry lookup. *)
Example deep_scan_logs :
  fst (run (deepscan healthy ["cs_paid_1"] (deep_request "10.0.0.1" "cs_other"))) = []
  /\ firstn 2 (fst (run (deepscan healthy ["cs_paid_1"]
                                   (deep_request "10.0.0.1" "cs_paid_1"))))
     = [Call_rdapLookup "10.0.0.1" "ip"; Io_fetch "https://rdap.org/ip/10.0.0.1"].
Proof. split; vm_compute; reflexivity. Qed.

(* ================================================================== *)
(** * More on the score *)
(* ================================================================== *)

Section ScoreMore.

(** X1: the clamp of [heuristicScore] never acts: the score is the plain
    sum of the baseline and the adjustments, one of eight values between
    42 and 75. *)
Theorem heuristicScore_never_reaches_the_clamp (out : Out.t) :
  heuristicScore out
  = 50 + adjustment (is_false (out_checks_https out)) 15
       + adjustment (is_false (out_checks_rdap out)) 10
       - adjustment (isp_is_google out) 8
  /\ In (heuristicScore out) [42; 50; 52; 57; 60; 65; 67; 75]
  /\ 42 <= heuristicScore out <= 75.
Proof.
  unfold heuristicScore, adjustment.
  destruct (is_false (out_checks_https out)), (is_false (out_checks_rdap out)),
           (isp_is_google out);
    (split; [reflexivity | split; [simpl; tauto | simpl; lia]]).
Qed.

Lemma same_letters_sym s1 s2 : same_letters s1 s2 -> same_letters s2 s1.
Proof. unfold same_letters. intros H. symmetry. exact H. Qed.

Lemma contains_ci_same_letters token s1 s2 :
  same_letters s1 s2 -> contains_ci token s1 -> contains_ci token s2.
Proof.
  unfold same_letters, contains_ci.
  intros Hs (before & found & after & E & Hrun).
  rewrite E in Hs. symmetry in Hs. rewrite !map_app in Hs.
  apply map_eq_app in Hs. destruct Hs as (before' & rest & -> & Hb & Hrest).
  apply map_eq_app in Hrest. destruct Hrest as (found' & after' & -> & Hf & Ha).
  exists before', found', after'. split; [reflexivity | ].
  rewrite Hf. exact Hrun.
Qed.

Lemma test_search_GOOGLE_same_letters s1 s2 :
  same_letters s1 s2 -> test_search GOOGLE_RE s1 = test_search GOOGLE_RE s2.
Proof.
  intros Hs.
  destruct (test_search GOOGLE_RE s1) eqn:E1, (test_search GOOGLE_RE s2) eqn:E2;
    try reflexivity.
  - apply GOOGLE_RE_contains in E1.
    apply (contains_ci_same_letters Hs) in E1. apply GOOGLE_RE_contains in E1.
    congruence.
  - apply GOOGLE_RE_contains in E2.
    apply (contains_ci_same_letters (same_letters_sym Hs)) in E2.
    apply GOOGLE_RE_contains in E2. congruence.
Qed.

Lemma same_letters_empty s1 s2 :
  same_letters s1 s2 -> truthy_str (Some s1) = truthy_str (Some s2).
Proof.
  unfold same_letters. destruct s1, s2; simpl; intros H;
    try reflexivity; discriminate H.
Qed.

(** X2: the letter case of the operator name does not matter to the score:
    two records with the same checks whose operator names spell the same
    once upper-cased get the same score. *)
Theorem heuristicScore_ignores_letter_case (out1 out2 : Out.t) (name1 name2 : string) :
  Out.checks out1 = Out.checks out2 ->
  out_geo_isp out1 = Some name1 ->
  out_geo_isp out2 = Some name2 ->
  same_letters name1 name2 ->
  heuristicScore out1 = heuristicScore out2.
Proof.
  intros Hc H1 H2 Hs.
  unfold heuristicScore, out_checks_https, out_checks_rdap, isp_is_google.
  rewrite Hc, H1, H2.
  rewrite (test_search_GOOGLE_same_letters Hs), (same_letters_empty Hs).
  reflexivity.
Qed.

End ScoreMore.

(* ================================================================== *)
(** * The languages of the two target patterns *)
(* ================================================================== *)

Section PatternLanguages.

Lemma Matches_Star_Class_all p (w : word) :
  Matches (Star (Class p)) w <-> Forall (fun c => p c = true) w.
Proof.
  split.
  - intros H. remember (Star (Class p)) as r eqn:Er. revert Er.
    induction H as [ | | | | | | r' w1 w2 H1 _ H2 IH2 ]; try discriminate.
    + intros _. constructor.
    + intros Er. injection Er as ->. apply Forall_app. split.
      * inversion H1; subst. constructor; [assumption | constructor].
      * apply IH2. reflexivity.
  - induction 1 as [ | c w Hc _ IH ]; [constructor | ].
    change (c :: w) with ([c] ++ w). constructor; [ | exact IH].
    constructor. exact Hc.
Qed.

Lemma Matches_Plus_Class_all p (w : word) :
  Matches (Plus (Class p)) w <-> w <> [] /\ Forall (fun c => p c = true) w.
Proof.
  unfold Plus. split.
  - intros H. inversion H as [ | | ? ? w1 w2 H1 H2 | | | | ]; subst.
    inversion H1; subst. apply Matches_Star_Class_all in H2.
    split; [discriminate | ]. constructor; assumption.
  - intros [Hne Hall]. destruct w as [ | c w ]; [congruence | ].
    inversion Hall; subst.
    change (c :: w) with ([c] ++ w). constructor.
    + constructor. assumption.
    + apply Matches_Star_Class_all. assumption.
Qed.

Lemma Matches_Seq_inv r1 r2 (w : word) :
  Matches (Seq r1 r2) w <->
  exists w1 w2, w = w1 ++ w2 /\ Matches r1 w1 /\ Matches r2 w2.
Proof.
  split.
  - intros H. inversion H; subst. eauto.
  - intros (w1 & w2 & -> & H1 & H2). constructor; assumption.
Qed.

Lemma Matches_dot (w : word) : Matches dot w <-> w = ["."%char].
Proof.
  unfold dot. split.
  - intros H. inversion H as [ | ? c Hc | | | | | ]; subst.
    apply Ascii.eqb_eq in Hc. subst. reflexivity.
  - intros ->. constructor. reflexivity.
Qed.

(** A run in a class, a dot, and the rest. *)
Lemma Matches_run_dot p rest (w : word) :
  Matches (Seq (Plus (Class p)) (Seq dot rest)) w <->
  exists a w',
    w = a ++ "."%char :: w'
    /\ (a <> [] /\ Forall (fun c => p c = true) a)
    /\ Matches rest w'.
Proof.
  rewrite Matches_Seq_inv. split.
  - intros (a & w1 & -> & Ha & H1).
    apply Matches_Seq_inv in H1. destruct H1 as (d & w' & -> & Hd & Hrest).
    apply Matches_dot in Hd. subst d.
    apply Matches_Plus_Class_all in Ha. exists a, w'. auto.
  - intros (a & w' & -> & Ha & Hrest).
    exists a, ("."%char :: w'). split; [reflexivity | ].
    split; [apply Matches_Plus_Class_all; exact Ha | ].
    apply Matches_Seq_inv. exists ["."%char], w'.
    split; [reflexivity | ]. split; [apply Matches_dot; reflexivity | exact Hrest].
Qed.

(** X3: the dotted-quad pattern accepts exactly four non-empty runs of
    digits joined by three dots; it puts no bound on the length or on the
    value of a run. *)
Theorem IPV4_RE_is_four_runs_of_digits (s : string) :
  test_anchored IPV4_RE s = true <->
  exists a b c d,
    digits a /\ digits b /\ digits c /\ digits d
    /\ list_ascii_of_string s
       = a ++ "."%char :: b ++ "."%char :: c ++ "."%char :: d.
Proof.
  unfold test_anchored, digits. rewrite accepts_Matches. unfold IPV4_RE.
  split.
  - intros H.
    apply Matches_run_dot in H. destruct H as (a & w1 & -> & Ha & H).
    apply Matches_run_dot in H. destruct H as (b & w2 & -> & Hb & H).
    apply Matches_run_dot in H. destruct H as (c & d & -> & Hc & H).
    apply Matches_Plus_Class_all in H.
    exists a, b, c, d. auto.
  - intros (a & b & c & d & Ha & Hb & Hc & Hd & ->).
    apply Matches_run_dot. exists a. eexists. split; [reflexivity | ].
    split; [exact Ha | ].
    apply Matches_run_dot. exists b. eexists. split; [reflexivity | ].
    split; [exact Hb | ].
    apply Matches_run_dot. exists c. eexists. split; [reflexivity | ].
    split; [exact Hc | ].
    apply Matches_Plus_Class_all. exact Hd.
Qed.

Lemma ignore_case_host_class (c : ascii) :
  ignore_case (one_of [range "a" "z"; range "0" "9"; Ascii.eqb "."; Ascii.eqb "-"]) c
  = host_char c.
Proof.
  destruct c as [[] [] [] [] [] [] [] []]; vm_compute; reflexivity.
Qed.

Lemma ignore_case_dot (c : ascii) :
  ignore_case (Ascii.eqb ".") c = Ascii.eqb "." c.
Proof.
  destruct c as [[] [] [] [] [] [] [] []]; vm_compute; reflexivity.
Qed.

Lemma Forall_class_ext (p q : ascii -> bool) (w : word) :
  (forall c, p c = q c) ->
  (Forall (fun c => p c = true) w <-> Forall (fun c => q c = true) w).
Proof.
  intros Hpq. split; intros H; induction H; constructor; trivial; congruence.
Qed.

Lemma Matches_Class_ext (p q : ascii -> bool) (w : word) :
  (forall c, p c = q c) -> (Matches (Class p) w <-> Matches (Class q) w).
Proof.
  intros Hpq. split; intros H; inversion H; subst; constructor; congruence.
Qed.

Lemma letter_is_host_char (c : ascii) : letter c = true -> host_char c = true.
Proof. unfold host_char. intros ->. reflexivity. Qed.

(** X4: the domain-like pattern accepts exactly a non-empty name of
    letters, digits, dots and hyphens, then a dot, then two letters or
    more, in either case; so a string it accepts has no other character
    (no slash, colon, space or query mark). *)
Theorem DOMAIN_RE_is_a_name_and_a_suffix (s : string) :
  (test_anchored DOMAIN_RE s = true <->
   exists name suffix,
     name <> [] /\ Forall (fun c => host_char c = true) name
     /\ (2 <= List.length suffix)%nat /\ Forall (fun c => letter c = true) suffix
     /\ list_ascii_of_string s = name ++ "."%char :: suffix)
  /\ (test_anchored DOMAIN_RE s = true ->
      Forall (fun c => host_char c = true) (list_ascii_of_string s)).
Proof.
  assert (Hiff :
    test_anchored DOMAIN_RE s = true <->
    exists name suffix,
      name <> [] /\ Forall (fun c => host_char c = true) name
      /\ (2 <= List.length suffix)%nat /\ Forall (fun c => letter c = true) suffix
      /\ list_ascii_of_string s = name ++ "."%char :: suffix).
  { unfold test_anchored. rewrite accepts_Matches.
    unfold DOMAIN_RE. simpl icase.
    rewrite Matches_Seq_inv. split.
    - intros (name & w1 & -> & Hname & H1).
      apply Matches_Plus_Class_all in Hname. destruct Hname as [Hne Hname].
      apply (Forall_class_ext _ _ _ ignore_case_host_class) in Hname.
      apply Matches_Seq_inv in H1. destruct H1 as (d & w2 & -> & Hd & H2).
      apply (Matches_Class_ext _ _ _ ignore_case_dot) in Hd.
      apply Matches_dot in Hd. subst d.
      apply Matches_Seq_inv in H2. destruct H2 as (l1 & w3 & -> & Hl1 & H3).
      apply Matches_Plus_Class_all in H3. destruct H3 as [Hne3 H3].
      inversion Hl1 as [ | ? c1 Hc1 | | | | | ]; subst.
      exists name, ([c1] ++ w3). split; [exact Hne | ]. split; [exact Hname | ].
      split.
      { destruct w3; [congruence | simpl; lia]. }
      split; [ | reflexivity].
      apply (Forall_class_ext _ _ _ ignore_case_a_z).
      constructor; assumption.
    - intros (name & suffix & Hne & Hname & Hlen & Hsuf & ->).
      exists name, ("."%char :: suffix). split; [reflexivity | ].
      split.
      { apply Matches_Plus_Class_all. split; [exact Hne | ].
        apply (Forall_class_ext _ _ _ ignore_case_host_class). exact Hname. }
      apply Matches_Seq_inv. exists ["."%char], suffix. split; [reflexivity | ].
      split.
      { apply (Matches_Class_ext _ _ _ ignore_case_dot). apply Matches_dot. reflexivity. }
      destruct suffix as [ | c1 [ | c2 rest ]]; simpl in Hlen; try lia.
      apply (Forall_class_ext _ _ _ ignore_case_a_z) in Hsuf.
      inversion Hsuf as [ | ? ? Hc1 Hrest ]; subst.
      apply Matches_Seq_inv. exists [c1], (c2 :: rest). split; [reflexivity | ].
      split; [constructor; exact Hc1 | ].
      apply Matches_Plus_Class_all. split; [discriminate | exact Hrest]. }
  split; [exact Hiff | ].
  intros H. apply Hiff in H.
  destruct H as (name & suffix & _ & Hname & _ & Hsuf & ->).
  apply Forall_app. split; [exact Hname | ].
  constructor; [reflexivity | ].
  eapply Forall_impl; [ | exact Hsuf]. intros c. apply letter_is_host_char.
Qed.

End PatternLanguages.

(* ================================================================== *)
(** * PortScanner: the list scanned, entry by entry *)
(* ================================================================== *)

Section PortScannerMore.

Variable w : World.

Lemma scanPorts_from_run (host : string) (ports : list Z) :
  forall (acc : list Port.t) (h : history),
    scanPorts_from w host ports acc h
    = (h ++ flat_map (probe_events host) ports,
       Ok (acc ++ probe_results w host ports h)).
Proof.
  induction ports as [ | p rest IH ]; intros acc h; simpl.
  - rewrite !app_nil_r. reflexivity.
  - unfold bind at 1. rewrite probe_step. rewrite IH.
    rewrite <- !app_assoc. reflexivity.
Qed.

Lemma scanPorts_run (host : string) (ports : list Z) (h : history) :
  scanPorts w host ports h
  = (h ++ flat_map (probe_events host) ports, Ok (probe_results w host ports h)).
Proof. unfold scanPorts. rewrite scanPorts_from_run. reflexivity. Qed.

Lemma probe_results_app (host : string) (ps qs : list Z) :
  forall h,
    probe_results w host (ps ++ qs) h
    = probe_results w host ps h
      ++ probe_results w host qs (h ++ flat_map (probe_events host) ps).
Proof.
  induction ps as [ | p ps IH ]; intros h.
  - simpl. rewrite app_nil_r. reflexivity.
  - cbn [probe_results app flat_map]. rewrite IH.
    rewrite <- !app_assoc. reflexivity.
Qed.

Lemma probe_results_nth (host : string) (ports : list Z) :
  forall (h : history) (i : nat) (p : Z),
    nth_error ports i = Some p ->
    nth_error (probe_results w host ports h) i
    = Some {| Port.port := p;
              Port.status :=
                status_after
                  (connect w
                     (h ++ flat_map (probe_events host) (firstn i ports)
                        ++ [Call_scanPort host p default_timeout])
                     p host default_timeout) |}.
Proof.
  induction ports as [ | q rest IH ]; intros h i p Hi.
  - destruct i; discriminate Hi.
  - destruct i as [ | i ].
    + injection Hi as ->. reflexivity.
    + cbn [nth_error probe_results firstn flat_map] in *.
      rewrite (IH _ _ _ Hi). rewrite <- !app_assoc. reflexivity.
Qed.

(** X5: scanning a list of ports in two parts, the second from the log the
    first left, gives the log and the entries of one scan of the whole
    list: the loop carries nothing from one port to the next but the
    entries pushed so far. *)
Theorem scanPorts_of_two_parts (host : string) (ps qs : list Z) (h : history) :
  exists h1 out1 h2 out2,
    scanPorts w host ps h = (h1, Ok out1)
    /\ scanPorts w host qs h1 = (h2, Ok out2)
    /\ scanPorts w host (ps ++ qs) h = (h2, Ok (out1 ++ out2)).
Proof.
  exists (h ++ flat_map (probe_events host) ps), (probe_results w host ps h).
  exists ((h ++ flat_map (probe_events host) ps) ++ flat_map (probe_events host) qs),
         (probe_results w host qs (h ++ flat_map (probe_events host) ps)).
  rewrite !scanPorts_run. split; [reflexivity | ]. split; [reflexivity | ].
  rewrite flat_map_app, probe_results_app, app_assoc. reflexivity.
Qed.

(** X6: the entry [scanPorts] returns at a position holds the port of
    that position, and its status is decided by the socket of that port's
    own probe, opened after the probes of the ports before it: "open" if
    it connected, "error" if the connect call threw, "closed" otherwise.
    So a probe that fails changes no other entry. *)
Theorem scanPorts_entry_by_own_socket
        (host : string) (ports : list Z) (h : history) (i : nat) (p : Z) :
  nth_error ports i = Some p ->
  let o := connect w (h ++ flat_map (probe_events host) (firstn i ports)
                        ++ [Call_scanPort host p default_timeout])
                   p host default_timeout in
  exists out,
    snd (scanPorts w host ports h) = Ok out
    /\ nth_error out i = Some {| Port.port := p; Port.status := status_after o |}
    /\ (status_after o = "open" <-> o = Connected)
    /\ (status_after o = "error" <-> exists message, o = ConnectThrows message)
    /\ (status_after o = "open" \/ status_after o = "closed"
        \/ status_after o = "error").
Proof.
  intros Hi o. rewrite scanPorts_run. eexists. split; [reflexivity | ].
  split; [exact (probe_results_nth host ports h i Hi) | ].
  destruct o; simpl.
  - split; [tauto | ]. split; [ | tauto].
    split; [discriminate | intros [? E]; discriminate E].
  - split; [split; discriminate | ]. split; [ | tauto].
    split; [discriminate | intros [? E]; discriminate E].
  - split; [split; discriminate | ]. split; [ | tauto].
    split; [discriminate | intros [? E]; discriminate E].
  - split; [split; discriminate | ]. split; [ | tauto].
    split; [intros _; eexists; reflexivity | reflexivity].
Qed.

End PortScannerMore.

(* ================================================================== *)
(** * ScanOrchestrator: the order of the calls *)
(* ================================================================== *)

Lemma stored_app (h1 h2 : history) : stored (h1 ++ h2) = stored h1 ++ stored h2.
Proof. apply flat_map_app. Qed.

Lemma stored_probe_events host ports : stored (flat_map (probe_events host) ports) = [].
Proof.
  induction ports as [ | p ports IH ]; [reflexivity | exact IH].
Qed.

Lemma stored_geo_events ip : stored (geo_events ip) = [].
Proof. destruct ip; reflexivity. Qed.

Lemma stored_basic_trace target t ip :
  stored (basic_trace target t ip) = [(target, t)].
Proof.
  unfold basic_trace.
  destruct (String.eqb t "domain"); [ | destruct (String.eqb t "ip")];
    rewrite ?stored_app, ?stored_geo_events; reflexivity.
Qed.

Lemma stored_deep_trace target ip key :
  stored (deep_trace target ip key) = [(target, "deepscan")].
Proof.
  unfold deep_trace. rewrite !stored_app.
  assert (E1 : forall k : Kind,
             stored (match k with
                     | Domain =>
                         [Call_whoisLookup target; Io_whoiser target;
                          Call_rdapLookup target "domain";
                          Io_fetch (rdap_url target "domain");
                          Call_resolveToIp target; Io_dns_lookup target]
                     | _ => [Call_rdapLookup target "ip";
                             Io_fetch (rdap_url target "ip")]
                     end) = [])
    by (intros []; reflexivity).
  rewrite E1. destruct ip as [a | ]; [ | reflexivity].
  rewrite !stored_app, stored_probe_events.
  destruct key; reflexivity.
Qed.

Section Traces.

Variable w : World.

Ltac trace_done :=
  eexists; split; [reflexivity | ];
  rewrite ?or_null_truthy by assumption;
  rewrite ?or_null_falsy by assumption;
  unfold address_of, out_checks_https; cbn;
  rewrite <- ?app_assoc;
  split; [reflexivity | ];
  split; [reflexivity | ];
  split;
  [ let Hk := fresh "Hk" in
    intros Hk; first [discriminate Hk | repeat split; reflexivity]
  | let Hd := fresh "Hd" in
    let Hi := fresh "Hi" in
    intros Hd Hi; first [discriminate Hd | discriminate Hi
                        | repeat split; reflexivity] ].

Lemma scan_trace (body : Body.t) (h : history) :
  truthy_str (Body.target body) = true ->
  returns (scan w body)
    (fun h' r =>
       exists out,
         r = reply 200 (OutJson out)
         /\ h' = h ++ basic_trace (text (Body.target body)) (basic_kind body)
                                  (address_of out)
         /\ Out.score out = Some (heuristicScore out)
         /\ (String.eqb (basic_kind body) "ip" = true ->
               Out.resolved_ip out = Some (Some (text (Body.target body)))
               /\ out_checks_https out = None)
         /\ (String.eqb (basic_kind body) "domain" = false ->
             String.eqb (basic_kind body) "ip" = false ->
               Out.checks out = Some Checks.empty
               /\ Out.rdap out = None /\ Out.whois out = None
               /\ Out.resolved_ip out = None /\ Out.geo out = None
               /\ Out.https_status out = None
               /\ Out.hints out
                  = Some ("Search " ++ text (Body.target body)
                          ++ " on GitHub, Twitter, etc.")%string)) h.
Proof.
  intros Ht. unfold scan. rewrite Ht. simpl negb. cbv iota.
  fold (basic_kind body). set (t := basic_kind body).
  set (target := text (Body.target body)).
  assert (Htarget : truthy_str (Some target) = true)
    by (subst target; destruct (Body.target body); [exact Ht | discriminate Ht]).
  clearbody t target. clear Ht.
  unfold basic_trace.
  apply returns_bind, returns_now.
  apply returns_try. apply returns_bind.
  destruct (String.eqb t "domain") eqn:Ed.
  - apply String.eqb_eq in Ed. subst t.
    change (String.eqb "domain" "ip") with false. cbv iota. simpl orb. cbv iota.
    repeat step.
    match goal with |- context [truthy_str (address_or_null ?a)] =>
      destruct (address_or_null a) as [ip | ] eqn:Ea;
      [destruct (truthy_str (Some ip)) eqn:Eip | ] end.
    + cbn [text]. repeat step; trace_done.
    + repeat step; trace_done.
    + cbn [truthy_str]. repeat step; trace_done.
  - destruct (String.eqb t "ip") eqn:Ei; simpl orb; cbv iota.
    + apply String.eqb_eq in Ei. subst t. clear Ed.
      repeat step.
      rewrite Htarget. cbn [text]. repeat step; trace_done.
    + repeat step; trace_done.
Qed.

Ltac deep_trace_done :=
  eexists; split; [reflexivity | ];
  rewrite ?or_null_truthy by assumption;
  rewrite ?or_null_falsy by assumption;
  unfold address_of; cbn;
  rewrite <- ?app_assoc;
  split; [reflexivity | ];
  split; [first [discriminate | intros _; reflexivity] | ];
  first [discriminate | intros _; reflexivity].

Lemma deepscan_trace (paidSessions : list string) (body : Body.t) (h : history) :
  truthy_str (Body.target body) = true ->
  truthy_str (Body.session_id body) = true ->
  has paidSessions (text (Body.session_id body)) = true ->
  returns (deepscan w paidSessions body)
    (fun h' r =>
       exists out,
         r = reply 200 (OutJson out)
         /\ h' = h ++ deep_trace (text (Body.target body)) (address_of out)
                                 (SHODAN_KEY w)
         /\ (deep_kind (text (Body.target body)) = IP ->
               address_of out = Some (text (Body.target body)))
         /\ (deep_kind (text (Body.target body)) = Unclassified ->
               address_of out = None)) h.
Proof.
  intros Ht Hs Hpaid. unfold deepscan. rewrite Ht, Hs, Hpaid.
  cbn [negb orb]. cbv iota. rewrite firstn_COMMON_PORTS.
  unfold deep_trace. remember COMMON_PORTS as ports eqn:Eports. clear Eports.
  set (target := text (Body.target body)).
  assert (Htarget : truthy_str (Some target) = true)
    by (subst target; destruct (Body.target body); [exact Ht | discriminate Ht]).
  clearbody target. clear Ht Hs Hpaid.
  apply returns_try. apply returns_bind, returns_now.
  unfold deep_kind.
  destruct (test_anchored DOMAIN_RE target) eqn:Edom.
  - repeat step.
    match goal with |- context [truthy_str (address_or_null ?a)] =>
      destruct (address_or_null a) as [ip | ] eqn:Ea;
      [destruct (truthy_str (Some ip)) eqn:Eip | ] end.
    + cbn [text]. repeat step.
      destruct (SHODAN_KEY w) as [key | ] eqn:Ekey.
      * rewrite (SHODAN_KEY_truthy w Ekey).
        apply returns_bind. eapply returns_shodanLookup; [exact Ekey | intros ? ?].
        repeat step. deep_trace_done.
      * cbn [truthy_str]. repeat step. deep_trace_done.
    + repeat step. deep_trace_done.
    + cbn [truthy_str]. repeat step. deep_trace_done.
  - repeat step.
    destruct (test_anchored IPV4_RE target) eqn:Eip4.
    + rewrite Htarget. cbn [text]. repeat step.
      destruct (SHODAN_KEY w) as [key | ] eqn:Ekey.
      * rewrite (SHODAN_KEY_truthy w Ekey).
        apply returns_bind. eapply returns_shodanLookup; [exact Ekey | intros ? ?].
        repeat step. deep_trace_done.
      * cbn [truthy_str]. repeat step. deep_trace_done.
    + cbn [truthy_str]. repeat step. deep_trace_done.
Qed.

(** X7: a basic scan of a present target replies 200, and the calls it
    makes are those of its kind, in this order: registry, then (domain
    only) ownership and DNS, then geolocation if an address came out, then
    (domain only) the HTTPS check, then one row stored under the target and
    the kind.  For the kind "ip" the address is the target as sent. *)
Theorem scan_log_is_the_trace_of_its_kind (body : Body.t) (h : history) :
  truthy_str (Body.target body) = true ->
  exists out h',
    scan w body h = (h', Ok (reply 200 (OutJson out)))
    /\ h' = h ++ basic_trace (text (Body.target body)) (basic_kind body)
                             (address_of out)
    /\ stored h' = stored h ++ [(text (Body.target body), basic_kind body)]
    /\ (basic_kind body = "ip" ->
          address_of out = Some (text (Body.target body))).
Proof.
  intros Ht. destruct (scan_trace body h Ht) as (h' & r & E & out & -> & -> & _ & Hip & _).
  exists out. eexists. split; [exact E | ]. split; [reflexivity | ].
  split; [rewrite stored_app, stored_basic_trace; reflexivity | ].
  intros Hk. apply String.eqb_eq in Hk. destruct (Hip Hk) as [Hr _].
  unfold address_of. rewrite Hr. reflexivity.
Qed.

(** X8: a basic scan asked for a kind other than "domain" and "ip" calls
    no collaborator at all: it stores one row and replies 200 with a
    record that has the hint and the score 50, empty checks, and no
    registry, ownership, address, geolocation or HTTPS field. *)
Theorem scan_of_another_kind_asks_nothing (body : Body.t) (h : history) :
  truthy_str (Body.target body) = true ->
  basic_kind body <> "domain" ->
  basic_kind body <> "ip" ->
  scan w body h
  = (h ++ [Io_db_run (text (Body.target body)) (basic_kind body)],
     Ok (reply 200
           (OutJson
              {| Out.target := text (Body.target body);
                 Out.type := Some (basic_kind body);
                 Out.when := clock w h;
                 Out.checks := Some Checks.empty;
                 Out.rdap := None; Out.whois := None;
                 Out.resolved_ip := None; Out.geo := None;
                 Out.https_status := None;
                 Out.hints := Some ("Search " ++ text (Body.target body)
                                    ++ " on GitHub, Twitter, etc.")%string;
                 Out.details := None;
                 Out.score := Some 50 |})))
  /\ truthy_str (Body.type body) = true.
Proof.
  intros Ht Hd Hi.
  apply String.eqb_neq in Hd. apply String.eqb_neq in Hi.
  split.
  - unfold scan. rewrite Ht. simpl negb. cbv iota.
    fold (basic_kind body). rewrite Hd, Hi. reflexivity.
  - unfold basic_kind in Hd, Hi.
    destruct (truthy_str (Body.type body)); [reflexivity | ].
    destruct (test_anchored IPV4_RE (text (Body.target body))); discriminate.
Qed.

(** X9: a basic scan of kind "ip", given or inferred, takes the target
    itself as the address and makes no HTTPS check, so its record has no
    [https] flag, and its score is one of 42, 50, 52 and 60: the 15 points
    of a failed HTTPS check are never added. *)
Theorem scan_of_an_address_scores_at_most_60 (body : Body.t) (h : history) :
  truthy_str (Body.target body) = true ->
  basic_kind body = "ip" ->
  exists out score,
    snd (scan w body h) = Ok (reply 200 (OutJson out))
    /\ Out.resolved_ip out = Some (Some (text (Body.target body)))
    /\ out_checks_https out = None
    /\ Out.score out = Some score
    /\ In score [42; 50; 52; 60].
Proof.
  intros Ht Hk. apply String.eqb_eq in Hk.
  destruct (scan_trace body h Ht) as (h' & r & E & out & -> & _ & Hs & Hip & _).
  destruct (Hip Hk) as [Hr Hhttps].
  exists out, (heuristicScore out). rewrite E.
  split; [reflexivity | ]. split; [exact Hr | ]. split; [exact Hhttps | ].
  split; [exact Hs | ].
  unfold heuristicScore. rewrite Hhttps.
  destruct (is_false (out_checks_rdap out)), (isp_is_google out);
    vm_compute; tauto.
Qed.

(** X10: a deep scan that is paid for replies 200, and the calls it makes
    are, in this order: for a domain-like target, ownership, registry and
    DNS, otherwise the registry alone, asked as for an address; then, if
    an address came out, geolocation, the probes of the common ports, and
    the threat enrichment when a key is set; then one row stored under the
    target and "deepscan".  A dotted-quad target is its own address; a
    target of neither form has none. *)
Theorem deepscan_log_is_the_trace_of_its_kind
        (paidSessions : list string) (body : Body.t) (h : history) :
  truthy_str (Body.target body) = true ->
  truthy_str (Body.session_id body) = true ->
  has paidSessions (text (Body.session_id body)) = true ->
  exists out h',
    deepscan w paidSessions body h = (h', Ok (reply 200 (OutJson out)))
    /\ h' = h ++ deep_trace (text (Body.target body)) (address_of out)
                            (SHODAN_KEY w)
    /\ stored h' = stored h ++ [(text (Body.target body), "deepscan")]
    /\ (deep_kind (text (Body.target body)) = IP ->
          address_of out = Some (text (Body.target body)))
    /\ (deep_kind (text (Body.target body)) = Unclassified ->
          address_of out = None).
Proof.
  intros Ht Hs Hpaid.
  destruct (deepscan_trace paidSessions body h Ht Hs Hpaid)
    as (h' & r & E & out & -> & -> & Hip & Hun).
  exists out. eexists. split; [exact E | ]. split; [reflexivity | ].
  split; [rewrite stored_app, stored_deep_trace; reflexivity | ].
  split; assumption.
Qed.

End Traces.

(* ================================================================== *)
(** * Payments: who is served a deep scan *)
(* ================================================================== *)

Section PaidSessions.

Variable w : World.
Variable s : Payments.Stripe.

Lemma has_add (paidSessions : list string) (id x : string) :
  has (Payments.add paidSessions id) x = (has paidSessions x || String.eqb x id)%bool.
Proof.
  unfold Payments.add. destruct (has paidSessions id) eqn:E.
  - destruct (String.eqb x id) eqn:Ex.
    + apply String.eqb_eq in Ex. subst x. rewrite E. reflexivity.
    + rewrite orb_false_r. reflexivity.
  - unfold has. rewrite existsb_app. simpl. rewrite orb_false_r. reflexivity.
Qed.

Lemma webhook_paid (raw : string) (sig : option string)
      (paidSessions : list string) (id : string) :
  has (fst (Payments.stripe_webhook s raw sig paidSessions)) id = true
  <-> has paidSessions id = true \/ attests s (PostWebhook raw sig) id.
Proof.
  unfold Payments.stripe_webhook, attests.
  destruct (Payments.stripe s) eqn:Es.
  - destruct (Payments.constructEvent s raw sig (Payments.STRIPE_WEBHOOK_SECRET s))
      as [ev | message] eqn:Ec.
    + destruct (String.eqb (Payments.type ev) "checkout.session.completed") eqn:Et;
        cbn [fst].
      * rewrite has_add, orb_true_iff. split.
        -- intros [H | H]; [left; exact H | right].
           exists raw, sig, ev. apply String.eqb_eq in Et, H.
           repeat split; [exact Ec | exact Et | symmetry; exact H].
        -- intros [H | (raw' & sig' & ev' & Ereq & _ & Ec' & _ & Eid)];
             [left; exact H | right].
           injection Ereq as <- <-. rewrite Ec in Ec'. injection Ec' as <-.
           apply String.eqb_eq. symmetry. exact Eid.
      * split; [intros H; left; exact H | ].
        intros [H | (raw' & sig' & ev' & Ereq & _ & Ec' & Et' & _)]; [exact H | ].
        injection Ereq as <- <-. rewrite Ec in Ec'. injection Ec' as <-.
        apply String.eqb_neq in Et. contradiction.
    + cbn [fst]. split; [intros H; left; exact H | ].
      intros [H | (raw' & sig' & ev' & Ereq & _ & Ec' & _)]; [exact H | ].
      injection Ereq as <- <-. rewrite Ec in Ec'. discriminate Ec'.
  - cbn [fst]. split; [intros H; left; exact H | ].
    intros [H | (raw' & sig' & ev' & _ & Es' & _)]; [exact H | discriminate Es'].
Qed.

Lemma handle_paid (paidSessions : list string) (req : request) (id : string) :
  has (fst (handle w s paidSessions req)) id = true
  <-> has paidSessions id = true \/ attests s req id.
Proof.
  destruct req as [body | body | body | raw sig]; cbn [handle fst];
    try (split; [intros H; left; exact H | ];
         intros [H | (raw' & sig' & ev' & Ereq & _)];
         [exact H | discriminate Ereq]).
  apply webhook_paid.
Qed.

Lemma serve_paid (reqs : list request) :
  forall (paidSessions : list string) (id : string),
    has (fst (serve w s paidSessions reqs)) id = true
    <-> has paidSessions id = true
        \/ exists req, In req reqs /\ attests s req id.
Proof.
  induction reqs as [ | req reqs IH ]; intros paidSessions id.
  - cbn [serve fst]. split; [intros H; left; exact H | ].
    intros [H | (req & [] & _)]. exact H.
  - cbn [serve].
    pose proof (handle_paid paidSessions req id) as Hh.
    destruct (handle w s paidSessions req) as [paid1 a].
    specialize (IH paid1 id).
    destruct (serve w s paid1 reqs) as [paid2 more].
    cbn [fst] in *. rewrite IH, Hh. split.
    + intros [[H | H] | (r & Hin & H)].
      * left. exact H.
      * right. exists req. split; [left; reflexivity | exact H].
      * right. exists r. split; [right; exact Hin | exact H].
    + intros [H | (r & [<- | Hin] & H)].
      * left. left. exact H.
      * left. right. exact H.
      * right. exists r. split; assumption.
Qed.

Lemma serve_app (before after : list request) :
  forall paidSessions,
    serve w s paidSessions (before ++ after)
    = (fst (serve w s (fst (serve w s paidSessions before)) after),
       snd (serve w s paidSessions before)
       ++ snd (serve w s (fst (serve w s paidSessions before)) after)).
Proof.
  induction before as [ | req before IH ]; intros paidSessions.
  - cbn [serve app fst snd]. destruct (serve w s paidSessions after). reflexivity.
  - cbn [serve app].
    destruct (handle w s paidSessions req) as [paid1 a].
    rewrite IH.
    destruct (serve w s paid1 before) as [paid2 more]. reflexivity.
Qed.

Lemma serve_length (reqs : list request) :
  forall paidSessions,
    List.length (snd (serve w s paidSessions reqs)) = List.length reqs.
Proof.
  induction reqs as [ | req reqs IH ]; intros paidSessions; [reflexivity | ].
  cbn [serve]. destruct (handle w s paidSessions req) as [paid1 a].
  specialize (IH paid1). destruct (serve w s paid1 reqs) as [paid2 more].
  cbn [snd List.length] in *. rewrite IH. reflexivity.
Qed.

(** The answer to a request is the handler's, run on the set the requests
    before it left. *)
Lemma serve_nth (before after : list request) (req : request) paidSessions :
  nth_error (snd (serve w s paidSessions (before ++ req :: after)))
            (List.length before)
  = Some (snd (handle w s (fst (serve w s paidSessions before)) req)).
Proof.
  rewrite serve_app. cbn [snd].
  rewrite nth_error_app2 by (rewrite serve_length; apply Nat.le_refl).
  rewrite serve_length, Nat.sub_diag. cbn [serve].
  destruct (handle w s (fst (serve w s paidSessions before)) req) as [paid1 a].
  destruct (serve w s paid1 after). reflexivity.
Qed.

Lemma deepscan_200 (paidSessions : list string) (body : Body.t) :
  (exists log out,
      run (deepscan w paidSessions body) = (log, Ok (reply 200 (OutJson out))))
  <-> truthy_str (Body.target body) = true
      /\ truthy_str (Body.session_id body) = true
      /\ has paidSessions (text (Body.session_id body)) = true.
Proof.
  split.
  - intros (log & out & E). unfold run, deepscan in E.
    destruct (truthy_str (Body.target body)); [ | discriminate E].
    destruct (truthy_str (Body.session_id body)); [ | discriminate E].
    destruct (has paidSessions (text (Body.session_id body))); [ | discriminate E].
    repeat split.
  - intros (Ht & Hs & Hpaid).
    destruct (deepscan_trace w paidSessions body [] Ht Hs Hpaid)
      as (h' & r & E & out & -> & _).
    exists h', out. exact E.
Qed.

(** X11: the webhook marks a session as paid only on an event whose
    signature verified and whose type is "checkout.session.completed", and
    then it marks the session of that event; whatever the request, no
    session stops being paid, and a request that is refused gets a 400 and
    leaves the set as it was. *)
Theorem webhook_marks_the_attested_session_only
        (raw : string) (sig : option string) (paidSessions : list string) :
  (forall id,
      has (fst (Payments.stripe_webhook s raw sig paidSessions)) id = true
      <-> has paidSessions id = true \/ attests s (PostWebhook raw sig) id)
  /\ (forall code message,
        snd (Payments.stripe_webhook s raw sig paidSessions)
        = Payments.WebhookError code message ->
        code = 400
        /\ fst (Payments.stripe_webhook s raw sig paidSessions) = paidSessions).
Proof.
  split; [intros id; apply webhook_paid | ].
  intros code message. unfold Payments.stripe_webhook.
  destruct (if Payments.stripe s
            then Payments.constructEvent s raw sig (Payments.STRIPE_WEBHOOK_SECRET s)
            else Throw "Cannot read properties of null (reading 'webhooks')")
    as [ev | e]; cbn [fst snd]; intros E; [discriminate E | ].
  injection E as <- _. split; reflexivity.
Qed.

(** X12: in any sequence of requests, a deep scan is answered 200 exactly
    when its target and its session id are present and the session id was
    paid for beforehand: it was in the set at the start, or an earlier
    request of the sequence was a webhook with a verified
    "checkout.session.completed" event for it.  Neither the target nor the
    number of scans already served to the session plays a part. *)
Theorem deep_scan_is_served_exactly_to_earlier_payers
        (paidSessions : list string) (before after : list request) (body : Body.t) :
  (exists log out,
      nth_error (snd (serve w s paidSessions (before ++ PostDeepscan body :: after)))
                (List.length before)
      = Some (Scanned log (Ok (reply 200 (OutJson out)))))
  <-> truthy_str (Body.target body) = true
      /\ truthy_str (Body.session_id body) = true
      /\ (has paidSessions (text (Body.session_id body)) = true
          \/ exists req, In req before
                         /\ attests s req (text (Body.session_id body))).
Proof.
  rewrite serve_nth. cbn [handle snd].
  rewrite <- serve_paid, <- deepscan_200.
  split; intros (log & out & E); exists log, out.
  - injection E as E1 E2. rewrite <- E1, <- E2. apply surjective_pairing.
  - rewrite E. reflexivity.
Qed.

Lemma serve_without_a_secret (reqs : list request) :
  Payments.stripe s = false ->
  serve w s [] reqs = ([], map (fun req => snd (handle w s [] req)) reqs).
Proof.
  intros Es. induction reqs as [ | req reqs IH ]; [reflexivity | ].
  cbn [serve map].
  assert (Eh : fst (handle w s [] req) = []).
  { destruct req; cbn [handle fst]; try reflexivity.
    unfold Payments.stripe_webhook. rewrite Es. reflexivity. }
  destruct (handle w s [] req) as [paid1 a]. cbn [fst snd] in *. subst paid1.
  rewrite IH. reflexivity.
Qed.

(** X13: a server started without a Stripe secret key (unset or empty)
    never sells or serves a deep scan: whatever requests arrive, no
    session is ever marked as paid, every webhook gets a 400 (the null
    client is caught like a bad signature), every checkout gets 400
    "Stripe not configured", and every deep scan is refused with 400 or
    403 before any call is made. *)
Theorem without_a_secret_nothing_is_sold_or_served (reqs : list request) :
  Payments.stripe s = false ->
  fst (serve w s [] reqs) = []
  /\ forall i req,
       nth_error reqs i = Some req ->
       exists resp,
         nth_error (snd (serve w s [] reqs)) i = Some resp
         /\ match req with
            | PostScan _ => exists log r, resp = Scanned log r
            | PostDeepscan _ =>
                exists r, resp = Scanned [] (Ok r)
                          /\ (Reply.code r = 400 \/ Reply.code r = 403)
            | PostCheckout _ =>
                resp = Checkout (Payments.CheckoutError 400 "Stripe not configured")
            | PostWebhook _ _ =>
                exists message, resp = Webhook (Payments.WebhookError 400 message)
            end.
Proof.
  intros Es. rewrite (serve_without_a_secret reqs Es). split; [reflexivity | ].
  intros i req Hi. cbn [snd]. rewrite nth_error_map, Hi. cbn [option_map].
  eexists. split; [reflexivity | ].
  destruct req as [body | body | body | raw sig]; cbn [handle snd].
  - eexists. eexists. reflexivity.
  - unfold run, deepscan.
    destruct (truthy_str (Body.target body));
      [destruct (truthy_str (Body.session_id body)) | ];
      cbn; eexists; (split; [reflexivity | ]); cbn; tauto.
  - unfold Payments.create_checkout_session. rewrite Es. reflexivity.
  - unfold Payments.stripe_webhook. rewrite Es. cbn [snd]. eexists. reflexivity.
Qed.

End PaidSessions.

(* ================================================================== *)
(** * Logs and payments on sample requests *)
(* ================================================================== *)

(** "Google LLC" and "GOOGLE llc" score the same. *)
Lemma operator_case_does_not_change_the_score :
  same_letters "Google LLC" "GOOGLE llc"
  /\ heuristicScore (record_of_operator "Google LLC")
     = heuristicScore (record_of_operator "GOOGLE llc").
Proof.
  split; [reflexivity | ].
  exact (heuristicScore_ignores_letter_case
           (record_of_operator "Google LLC") (record_of_operator "GOOGLE llc")
           eq_refl eq_refl eq_refl eq_refl).
Defined.

(** Ports 80 and 22 of a host that accepts on 80 only: the second entry is
    port 22, closed. *)
Lemma second_port_of_a_sample_scan :
  nth_error [80; 22] 1 = Some 22
  /\ exists out,
       snd (scanPorts healthy "10.0.0.1" [80; 22] []) = Ok out
       /\ nth_error out 1 = Some {| Port.port := 22; Port.status := "closed" |}.
Proof.
  split; [reflexivity | ].
  destruct (scanPorts_entry_by_own_socket healthy "10.0.0.1" [80; 22] [] 1 eq_refl)
    as (out & E & Hnth & _).
  exists out. split; [exact E | exact Hnth].
Defined.

(** The basic scan of a domain in a healthy world: the nine calls, in
    order, and the row stored. *)
Lemma basic_scan_log_on_a_healthy_world :
  exists out h',
    scan healthy (basic_request "example.com") []
    = (h', Ok (reply 200 (OutJson out)))
    /\ h' = [Call_rdapLookup "example.com" "domain";
             Io_fetch "https://rdap.org/domain/example.com";
             Call_whoisLookup "example.com"; Io_whoiser "example.com";
             Call_resolveToIp "example.com"; Io_dns_lookup "example.com";
             Call_ipGeo "93.184.216.34";
             Io_fetch (geo_url "93.184.216.34");
             Io_fetch "https://example.com";
             Io_db_run "example.com" "domain"]
    /\ stored h' = [("example.com", "domain")].
Proof.
  destruct (scan_log_is_the_trace_of_its_kind
              healthy (basic_request "example.com") [] eq_refl)
    as (out & h' & E & Eh & Es & _).
  exists out, h'. split; [exact E | ]. split; [ | exact Es].
  rewrite Eh. replace (address_of out) with (Some "93.184.216.34"); [reflexivity | ].
  vm_compute in E. injection E as _ <-. reflexivity.
Defined.

(** A user name: one row stored, nothing asked. *)
Lemma username_scan_asks_nothing :
  basic_kind handle_request = "username"
  /\ fst (scan offline handle_request []) = [Io_db_run "octocat" "username"]
  /\ exists out, snd (scan offline handle_request []) = Ok (reply 200 (OutJson out))
                 /\ Out.score out = Some 50.
Proof.
  split; [reflexivity | ].
  destruct (scan_of_another_kind_asks_nothing offline handle_request []) as [E _];
    [reflexivity | discriminate | discriminate | ].
  rewrite E. split; [reflexivity | ].
  eexists. split; reflexivity.
Defined.

(** An address in a healthy world scores 50. *)
Lemma address_scan_on_a_healthy_world :
  basic_kind (basic_request "8.8.8.8") = "ip"
  /\ exists out score,
       snd (scan healthy (basic_request "8.8.8.8") []) = Ok (reply 200 (OutJson out))
       /\ Out.resolved_ip out = Some (Some "8.8.8.8")
       /\ out_checks_https out = None
       /\ Out.score out = Some score
       /\ In score [42; 50; 52; 60].
Proof.
  split; [reflexivity | ].
  exact (scan_of_an_address_scores_at_most_60
           healthy (basic_request "8.8.8.8") [] eq_refl eq_refl).
Defined.

(** The paid deep scan of an address: registry, geolocation, twenty
    probes, one row. *)
Lemma deep_scan_log_on_a_healthy_world :
  exists out h',
    deepscan healthy ["cs_paid_1"] (deep_request "10.0.0.1" "cs_paid_1") []
    = (h', Ok (reply 200 (OutJson out)))
    /\ h' = [Call_rdapLookup "10.0.0.1" "ip"; Io_fetch "https://rdap.org/ip/10.0.0.1";
             Call_ipGeo "10.0.0.1"; Io_fetch (geo_url "10.0.0.1")]
            ++ flat_map (probe_events "10.0.0.1") COMMON_PORTS
            ++ [Io_db_run "10.0.0.1" "deepscan"]
    /\ stored h' = [("10.0.0.1", "deepscan")].
Proof.
  destruct (deepscan_log_is_the_trace_of_its_kind
              healthy ["cs_paid_1"] (deep_request "10.0.0.1" "cs_paid_1") []
              eq_refl eq_refl eq_refl)
    as (out & h' & E & Eh & Es & Hip & _).
  exists out, h'. split; [exact E | ]. split; [ | exact Es].
  rewrite Eh, (Hip eq_refl). reflexivity.
Defined.

(** Without the secret key, whatever is asked after a webhook with the
    right signature, nothing is paid and nothing is served. *)
Lemma no_secret_no_deep_scan :
  Payments.stripe stripe_without_secret = false
  /\ fst (serve offline stripe_without_secret []
            [PostWebhook "{}" (Some "t=1,v1=ok");
             PostDeepscan (deep_request "example.com" "cs_paid_1")]) = []
  /\ exists resp,
       nth_error (snd (serve offline stripe_without_secret []
                         [PostWebhook "{}" (Some "t=1,v1=ok");
                          PostDeepscan (deep_request "example.com" "cs_paid_1")])) 1
       = Some resp
       /\ exists r, resp = Scanned [] (Ok r)
                    /\ (Reply.code r = 400 \/ Reply.code r = 403).
Proof.
  split; [reflexivity | ].
  destruct (without_a_secret_nothing_is_sold_or_served
              offline stripe_without_secret
              [PostWebhook "{}" (Some "t=1,v1=ok");
               PostDeepscan (deep_request "example.com" "cs_paid_1")]
              eq_refl) as [Hpaid Hresp].
  split; [exact Hpaid | ].
  exact (Hresp 1%nat (PostDeepscan (deep_request "example.com" "cs_paid_1")) eq_refl).
Defined.

Example refused_without_a_secret :
  serve offline stripe_without_secret []
        [PostWebhook "{}" (Some "t=1,v1=ok");
         PostDeepscan (deep_request "example.com" "cs_paid_1");
         PostCheckout (basic_request "example.com")]
  = ([],
     [Webhook (Payments.WebhookError 400
        "Webhook Error: Cannot read properties of null (reading 'webhooks')");
      Scanned [] (Ok (reply 403
        (ErrorJson "Pro access required (no valid payment session)")));
      Checkout (Payments.CheckoutError 400 "Stripe not configured")]).
Proof. reflexivity. Qed.

(** With the secret key: refused before the payment, served after it, for
    any target and as often as asked. *)
Example deep_scans_around_a_payment :
  map (fun a => match a with
                | Scanned _ (Ok r) => Reply.code r
                | Scanned _ (Throw _) => 500
                | Checkout _ => 0
                | Webhook Payments.Received => 200
                | Webhook (Payments.WebhookError code _) => code
                end)
      (snd (serve offline sample_stripe []
              [PostDeepscan (deep_request "example.com" "cs_paid_1");
               PostWebhook "{}" (Some "t=1,v1=forged");
               PostDeepscan (deep_request "example.com" "cs_paid_1");
               PostWebhook "{}" (Some "t=1,v1=ok");
               PostDeepscan (deep_request "example.com" "cs_paid_1");
               PostDeepscan (deep_request "10.0.0.1" "cs_paid_1");
               PostDeepscan (deep_request "10.0.0.1" "cs_other")]))
  = [403; 400; 403; 200; 200; 200; 403].
Proof. vm_compute. reflexivity. Qed.

(** The patterns put no bound on a run of digits, and the domain-like one
    takes no scheme, path or mail address. *)
Example pattern_samples_without_bounds :
  test_anchored IPV4_RE "999.1.1.1" = true
  /\ test_anchored IPV4_RE "1.2.3" = false
  /\ test_anchored DOMAIN_RE "Example.COM" = true
  /\ test_anchored DOMAIN_RE "https://example.com" = false
  /\ test_anchored DOMAIN_RE "someone@example.com" = false.
Proof. vm_compute. repeat split. Qed.
